(** * FinanceDept dashboard: the schema-inference and aggregation engine

    A shallow embedding of [src/components/Dashboard.tsx] (the helper
    [findKey], the palette [COLORS] and the [analytics] memo) together with
    the part of the JavaScript runtime the engine relies on, and of the
    code around it: [fetchData], the realtime handler, [triggerAnalysis]
    and the render branches of the component, [checkTableExists],
    [generateInsights] and [InsightsPanel].

    Conventions of the model.
    - A JavaScript string is a [string] whose characters are code units
      below 256 (the Latin-1 range).
    - A JavaScript number is a [number]: NaN, the two infinities, or an exact
      rational.  Arithmetic is exact: binary64 rounding and overflow are not
      modelled, and no property below rests on a law of exact arithmetic
      that rounding breaks (associativity, exact quotients, sums that stay
      finite).
    - A row is the list of its own properties, in property order; what it
      does not own it inherits from [Object.prototype].
    - The two accumulator objects of [analytics] are object literals: their
      own properties are an insertion-ordered map from property names to
      entries, and under any other name they answer with what
      [Object.prototype] holds.  The properties the program itself adds to
      [Object.prototype] are the state [Proto], threaded through the
      engine.
    - Everything that depends on the host (time zone, locale, parsing of
      free-form date strings) is a field of [Platform].
    - What the database and the model answer is an input: [HeadQuery],
      [SelectQuery] and the fields of [Service]. *)

From Stdlib Require Import ZArith QArith Qreduction Qabs String Ascii List Bool Lia.
From Stdlib Require Import Permutation Sorted DecimalString OrdersEx.
Import ListNotations.

Local Open Scope string_scope.
Local Open Scope Z_scope.

(** ** The JavaScript runtime *)

Module JS.

(** *** Numbers *)

Inductive number : Type :=
| NaN
| Infinity (negative : bool)
| Fin (q : Q).

Definition num (z : Z) : number := Fin (inject_Z z).

Definition Qzerob (q : Q) : bool := Z.eqb (Qnum q) 0.
Definition Qnegb (q : Q) : bool := Z.ltb (Qnum q) 0.
Definition Qposb (q : Q) : bool := Z.ltb 0 (Qnum q).

(** [x + y] *)
Definition add (x y : number) : number :=
  match x, y with
  | NaN, _ | _, NaN => NaN
  | Infinity s, Infinity s' => if Bool.eqb s s' then Infinity s else NaN
  | Infinity s, Fin _ | Fin _, Infinity s => Infinity s
  | Fin a, Fin b => Fin (Qred (a + b))
  end.

(** [x - y] *)
Definition sub (x y : number) : number :=
  match x, y with
  | NaN, _ | _, NaN => NaN
  | Infinity s, Infinity s' => if Bool.eqb s s' then NaN else Infinity s
  | Infinity s, Fin _ => Infinity s
  | Fin _, Infinity s => Infinity (negb s)
  | Fin a, Fin b => Fin (Qred (a - b))
  end.

(** [x * y] *)
Definition mul (x y : number) : number :=
  match x, y with
  | NaN, _ | _, NaN => NaN
  | Infinity s, Infinity s' => Infinity (xorb s s')
  | Infinity s, Fin b | Fin b, Infinity s =>
      if Qzerob b then NaN else Infinity (xorb s (Qnegb b))
  | Fin a, Fin b => Fin (Qred (a * b))
  end.

(** [x / y] *)
Definition div (x y : number) : number :=
  match x, y with
  | NaN, _ | _, NaN => NaN
  | Infinity _, Infinity _ => NaN
  | Infinity s, Fin b => Infinity (xorb s (Qnegb b))
  | Fin _, Infinity _ => Fin 0
  | Fin a, Fin b =>
      if Qzerob b
      then (if Qzerob a then NaN else Infinity (Qnegb a))
      else Fin (Qred (a / b))
  end.

(** [x > 0] *)
Definition gt0 (x : number) : bool :=
  match x with
  | NaN => false
  | Infinity s => negb s
  | Fin a => Qposb a
  end.

(** The sign of a comparator result, as [Array.prototype.sort] reads it:
    NaN counts as 0. *)
Definition sign (x : number) : Z :=
  match x with
  | NaN => 0
  | Infinity s => if s then -1 else 1
  | Fin a => Z.sgn (Qnum a)
  end.

(** ToBoolean on a number: NaN and 0 are falsy. *)
Definition truthy_number (x : number) : bool :=
  match x with
  | NaN => false
  | Infinity _ => true
  | Fin a => negb (Qzerob a)
  end.

(** [x || 0] for a number [x]. *)
Definition or_zero (x : number) : number :=
  if truthy_number x then x else num 0.

(** *** Strings *)

Definition code (c : ascii) : Z := Z.of_N (N_of_ascii c).
Definition of_code (z : Z) : ascii := ascii_of_N (Z.to_N z).

(** [toLowerCase] on one code unit of the Latin-1 range. *)
Definition lower_unit (c : ascii) : ascii :=
  let n := code c in
  if (65 <=? n) && (n <=? 90) then of_code (n + 32)
  else if (192 <=? n) && (n <=? 222) && negb (n =? 215) then of_code (n + 32)
  else c.

(** [s.toLowerCase()] *)
Fixpoint toLowerCase (s : string) : string :=
  match s with
  | EmptyString => EmptyString
  | String c s' => String (lower_unit c) (toLowerCase s')
  end.

(** [s.includes(c)] *)
Fixpoint includes (s c : string) : bool :=
  if String.prefix c s then true
  else match s with
       | EmptyString => false
       | String _ s' => includes s' c
       end.

(** White space and line terminators among the code units below 256. *)
Definition is_space (c : ascii) : bool :=
  let n := code c in
  ((9 <=? n) && (n <=? 13)) || (n =? 32) || (n =? 160).

Definition is_digit (c : ascii) : bool :=
  let n := code c in (48 <=? n) && (n <=? 57).

(** The value of a digit in a radix up to 16, if it is one. *)
Definition digit_value (radix : Z) (c : ascii) : option Z :=
  let n := code c in
  let v := if (48 <=? n) && (n <=? 57) then n - 48
           else if (97 <=? n) && (n <=? 102) then n - 87
           else if (65 <=? n) && (n <=? 70) then n - 55
           else 16 in
  if v <? radix then Some v else None.

Fixpoint drop_spaces (l : list ascii) : list ascii :=
  match l with
  | c :: l' => if is_space c then drop_spaces l' else l
  | [] => []
  end.

Definition trim (l : list ascii) : list ascii :=
  rev (drop_spaces (rev (drop_spaces l))).

(** Reads the longest prefix of digits: the digits read and the rest. *)
Fixpoint span_digits (l : list ascii) : list ascii * list ascii :=
  match l with
  | c :: l' =>
      if is_digit c
      then let (ds, rest) := span_digits l' in (c :: ds, rest)
      else ([], l)
  | [] => ([], [])
  end.

(** The integer written by a list of digits in a radix; [None] if a
    character is not a digit of that radix. *)
Fixpoint digits_value (radix : Z) (acc : Z) (l : list ascii) : option Z :=
  match l with
  | [] => Some acc
  | c :: l' =>
      match digit_value radix c with
      | Some v => digits_value radix (acc * radix + v) l'
      | None => None
      end
  end.

Definition decimal_value (l : list ascii) : Z :=
  match digits_value 10 0 l with Some v => v | None => 0 end.

(** The exponent part of a decimal literal: empty, or [e], an optional sign
    and at least one digit, up to the end. *)
Definition exponent_part (l : list ascii) : option Z :=
  match l with
  | [] => Some 0
  | c :: l' =>
      if (code c =? 101) || (code c =? 69)
      then
        let (negative, ds) :=
          match l' with
          | s :: l'' =>
              if code s =? 45 then (true, l'')
              else if code s =? 43 then (false, l'')
              else (false, l')
          | [] => (false, [])
          end in
        match ds with
        | [] => None
        | _ => match digits_value 10 0 ds with
               | Some e => Some (if negative then - e else e)
               | None => None
               end
        end
      else None
  end.

(** An unsigned decimal literal: digits, an optional fraction, an optional
    exponent, with a digit before or after the point. *)
Definition unsigned_decimal (l : list ascii) : option Q :=
  let (ip, r1) := span_digits l in
  let (fp, r2) :=
    match r1 with
    | c :: r => if code c =? 46 then span_digits r else ([], r1)
    | [] => ([], [])
    end in
  match (ip ++ fp)%list with
  | [] => None
  | ds =>
      match exponent_part r2 with
      | Some e =>
          Some (inject_Z (decimal_value ds)
                * Qpower (inject_Z 10) (e - Z.of_nat (List.length fp)))%Q
      | None => None
      end
  end.

Definition radix_literal (radix : Z) (l : list ascii) : number :=
  match l with
  | [] => NaN
  | _ => match digits_value radix 0 l with
         | Some v => num v
         | None => NaN
         end
  end.

Definition signed_literal (negative : bool) (l : list ascii) : number :=
  if list_eq_dec ascii_dec l (list_ascii_of_string "Infinity")
  then Infinity negative
  else match unsigned_decimal l with
       | Some q => Fin (Qred (if negative then - q else q))
       | None => NaN
       end.

(** StringToNumber: the numeric value of a string, NaN when the string is
    not a numeric literal. *)
Definition StringToNumber (s : string) : number :=
  match trim (list_ascii_of_string s) with
  | [] => num 0
  | c :: l =>
      if code c =? 45 then signed_literal true l
      else if code c =? 43 then signed_literal false l
      else
        match l with
        | x :: l' =>
            if (code c =? 48) && ((code x =? 120) || (code x =? 88))
            then radix_literal 16 l'
            else if (code c =? 48) && ((code x =? 111) || (code x =? 79))
            then radix_literal 8 l'
            else if (code c =? 48) && ((code x =? 98) || (code x =? 66))
            then radix_literal 2 l'
            else signed_literal false (c :: l)
        | [] => signed_literal false (c :: l)
        end
  end.

(** *** The host *)

(** What the engine takes from its host: the time zone, the locale and the
    host's own reading of strings and numbers. *)
Record Platform : Type := {
  (** offset of local time from UTC, in milliseconds, at a UTC time value *)
  LocalTZA : Z -> Z;
  (** [Date] parsing of a string that is not a date-only ISO string:
      the time value, if the host accepts the string *)
  hostDateParse : string -> option Z;
  (** [toLocaleString('default', {month: 'short', year: '2-digit'})] of a
      time value *)
  monthYearLabel : Z -> string;
  (** [a.localeCompare(b)]: negative, zero or positive *)
  localeCompare : string -> string -> Z;
  (** the digits of a finite number that is not an integer below 10^21 in
      magnitude *)
  hostNumberToString : Q -> string;
  (** [String(f)] for the method of [Object.prototype] of a given name *)
  nativeFunctionToString : string -> string
}.

(** *** Values and coercions *)

Inductive value : Type :=
| VUndefined
| VNull
| VBoolean (b : bool)
| VNumber (n : number)
| VString (s : string)
(** what [Object.prototype] holds under one of its own names: a method,
    or, under [__proto__], [Object.prototype] itself *)
| VBuiltin (name : string).

(** [Number(v)] *)
Definition ToNumber (v : value) : number :=
  match v with
  | VUndefined => NaN
  | VNull => num 0
  | VBoolean b => if b then num 1 else num 0
  | VNumber n => n
  | VString s => StringToNumber s
  | VBuiltin _ => NaN
  end.

(** ToBoolean *)
Definition truthy (v : value) : bool :=
  match v with
  | VUndefined | VNull => false
  | VBoolean b => b
  | VNumber n => truthy_number n
  | VString s => negb (String.eqb s "")
  | VBuiltin _ => true
  end.

(** [a || b] *)
Definition or (a b : value) : value := if truthy a then a else b.

(** [v !== undefined] *)
Definition defined (v : value) : bool :=
  match v with VUndefined => false | _ => true end.

Definition string_of_Z (z : Z) : string :=
  NilZero.string_of_int (Z.to_int z).

(** Number::toString in radix 10. *)
Definition NumberToString (P : Platform) (n : number) : string :=
  match n with
  | NaN => "NaN"
  | Infinity s => if s then "-Infinity" else "Infinity"
  | Fin q =>
      let r := Qred q in
      if (Zpos (Qden r) =? 1) && (Z.abs (Qnum r) <? 10 ^ 21)
      then string_of_Z (Qnum r)
      else hostNumberToString P r
  end.

(** [String(v)] *)
Definition ToString (P : Platform) (v : value) : string :=
  match v with
  | VUndefined => "undefined"
  | VNull => "null"
  | VBoolean b => if b then "true" else "false"
  | VNumber n => NumberToString P n
  | VString s => s
  | VBuiltin name =>
      if String.eqb name "__proto__" then "[object Object]"
      else nativeFunctionToString P name
  end.

(** *** Dates *)

Definition msPerDay : Z := 86400000.

(** TimeClip: a time value is at most 8.64e15 in magnitude. *)
Definition TimeClip (t : Z) : option Z :=
  if Z.abs t <=? 8640000000000000 then Some t else None.

Definition leap_year (y : Z) : bool :=
  ((y mod 4 =? 0) && negb (y mod 100 =? 0)) || (y mod 400 =? 0).

Definition days_in_month (y m : Z) : Z :=
  if m =? 2 then (if leap_year y then 29 else 28)
  else if (m =? 4) || (m =? 6) || (m =? 9) || (m =? 11) then 30
  else 31.

(** The day number, counted from 1 January 1970, of day [d] of month [m]
    (1 to 12) of year [y] in the proleptic Gregorian calendar. *)
Definition days_from_civil (y m d : Z) : Z :=
  let y' := if m <=? 2 then y - 1 else y in
  let era := y' / 400 in
  let yoe := y' - era * 400 in
  let mp := if m <=? 2 then m + 9 else m - 3 in
  let doy := (153 * mp + 2) / 5 + d - 1 in
  let doe := yoe * 365 + yoe / 4 - yoe / 100 + doy in
  era * 146097 + doe - 719468.

(** The year and the month index (0 to 11) of a day number. *)
Definition civil_from_days (day : Z) : Z * Z :=
  let z := day + 719468 in
  let era := z / 146097 in
  let doe := z - era * 146097 in
  let yoe := (doe - doe / 1460 + doe / 36524 - doe / 146096) / 365 in
  let doy := doe - (365 * yoe + yoe / 4 - yoe / 100) in
  let mp := (5 * doy + 2) / 153 in
  let m := if mp <? 10 then mp + 3 else mp - 9 in
  let y := yoe + era * 400 in
  (if m <=? 2 then y + 1 else y, m - 1).

(** Reads exactly [n] digits. *)
Fixpoint fixed_digits (n : nat) (acc : Z) (l : list ascii)
  : option (Z * list ascii) :=
  match n with
  | O => Some (acc, l)
  | S n' =>
      match l with
      | c :: l' =>
          if is_digit c
          then fixed_digits n' (acc * 10 + (code c - 48)) l'
          else None
      | [] => None
      end
  end.

(** The year of an ISO date: four digits, or a sign and six digits. *)
Definition iso_year (l : list ascii) : option (Z * list ascii) :=
  match l with
  | c :: l' =>
      if code c =? 43 then fixed_digits 6 0 l'
      else if code c =? 45 then
        match fixed_digits 6 0 l' with
        | Some (y, r) => if y =? 0 then None else Some (- y, r)
        | None => None
        end
      else fixed_digits 4 0 l
  | [] => None
  end.

(** A hyphen and two digits. *)
Definition iso_field (l : list ascii) : option (Z * list ascii) :=
  match l with
  | c :: l' => if code c =? 45 then fixed_digits 2 0 l' else None
  | [] => None
  end.

Definition valid_date (y m d : Z) : option (Z * Z * Z) :=
  if (1 <=? m) && (m <=? 12) && (1 <=? d) && (d <=? days_in_month y m)
  then Some (y, m, d) else None.

(** The date-only forms of the ISO format, [YYYY], [YYYY-MM] and
    [YYYY-MM-DD], with a month and a day that exist. *)
Definition iso_date (s : string) : option (Z * Z * Z) :=
  match iso_year (list_ascii_of_string s) with
  | Some (y, []) => Some (y, 1, 1)
  | Some (y, r1) =>
      match iso_field r1 with
      | Some (m, []) => valid_date y m 1
      | Some (m, r2) =>
          match iso_field r2 with
          | Some (d, []) => valid_date y m d
          | _ => None
          end
      | None => None
      end
  | None => None
  end.

(** [Date.parse(s)]: a date-only ISO string is a UTC midnight; any other
    string is left to the host. *)
Definition Date_parse (P : Platform) (s : string) : option Z :=
  match iso_date s with
  | Some (y, m, d) => TimeClip (days_from_civil y m d * msPerDay)
  | None => hostDateParse P s
  end.

(** The time value of [new Date(v)]; [None] is the invalid date, whose
    [getTime()] is NaN. *)
Definition Date_new (P : Platform) (v : value) : option Z :=
  match v with
  | VString s => Date_parse P s
  | VBuiltin _ => Date_parse P (ToString P v)
  | _ =>
      match ToNumber v with
      | Fin q =>
          if Qle_bool (Qabs q) (inject_Z 8640000000000000)
          then Some (Z.quot (Qnum q) (Zpos (Qden q)))
          else None
      | _ => None
      end
  end.

Definition local_day (P : Platform) (t : Z) : Z :=
  (t + LocalTZA P t) / msPerDay.

(** [d.getFullYear()] and [d.getMonth()] of a valid date. *)
Definition getFullYear (P : Platform) (t : Z) : Z :=
  fst (civil_from_days (local_day P t)).
Definition getMonth (P : Platform) (t : Z) : Z :=
  snd (civil_from_days (local_day P t)).

(** *** Arrays and objects *)

Section Sort.
Context {A : Type} (comparefn : A -> A -> Z).

Fixpoint insert (x : A) (l : list A) : list A :=
  match l with
  | [] => [x]
  | y :: l' => if comparefn x y <=? 0 then x :: l else y :: insert x l'
  end.

(** [l.sort(comparefn)]: the stable sort. *)
Definition sort (l : list A) : list A := fold_right insert [] l.
End Sort.

(** [l.slice(0, n)] *)
Definition slice0 {A : Type} (n : nat) (l : list A) : list A := firstn n l.

(** [l.find(p)] *)
Definition Array_find {A : Type} (p : A -> bool) (l : list A) : option A :=
  List.find p l.

(** [l.some(p)] *)
Definition Array_some {A : Type} (p : A -> bool) (l : list A) : bool :=
  existsb p l.

(** An object used as a map: its own properties in insertion order. *)
Definition Obj (T : Type) : Type := list (string * T).

(** [o[k]], when [k] is an own property. *)
Fixpoint get {T : Type} (o : Obj T) (k : string) : option T :=
  match o with
  | [] => None
  | (k', v) :: o' => if String.eqb k k' then Some v else get o' k
  end.

(** [o[k] = v]: an existing property keeps its place, a new one is
    appended. *)
Fixpoint set {T : Type} (o : Obj T) (k : string) (v : T) : Obj T :=
  match o with
  | [] => [(k, v)]
  | (k', v') :: o' =>
      if String.eqb k k' then (k', v) :: o' else (k', v') :: set o' k v
  end.

(** [o[k].f = ...]: the entry under [k], when there is one, is updated in
    place. *)
Fixpoint modify {T : Type} (o : Obj T) (k : string) (f : T -> T) : Obj T :=
  match o with
  | [] => []
  | (k', v) :: o' =>
      if String.eqb k k' then (k', f v) :: o' else (k', v) :: modify o' k f
  end.

(** The array index a property name writes canonically, if any. *)
Definition array_index (k : string) : option Z :=
  match list_ascii_of_string k with
  | [] => None
  | c :: l =>
      if (code c =? 48) && negb (Nat.eqb (List.length l) 0) then None
      else match digits_value 10 0 (c :: l) with
           | Some v => if v <? 2 ^ 32 - 1 then Some v else None
           | None => None
           end
  end.

Definition is_index {T : Type} (p : string * T) : bool :=
  match array_index (fst p) with Some _ => true | None => false end.

Definition index_of {T : Type} (p : string * T) : Z :=
  match array_index (fst p) with Some i => i | None => 0 end.

(** The own properties in property order: array indices ascending, then
    the other names in insertion order. *)
Definition own_properties {T : Type} (o : Obj T) : list (string * T) :=
  (sort (fun a b => index_of a - index_of b) (filter is_index o)
   ++ filter (fun p => negb (is_index p)) o)%list.

(** [Object.values(o)] *)
Definition Object_values {T : Type} (o : Obj T) : list T :=
  map snd (own_properties o).

(** A row of the table: a JSON object, given by its own properties in
    property order. *)
Definition Row : Type := list (string * value).

(** [Object.keys(row)] *)
Definition Object_keys (row : Row) : list string := map fst row.

(** *** [Object.prototype] *)

(** The property names of [Object.prototype] as the runtime provides it:
    its methods and the accessor [__proto__]. *)
Definition builtins : list string :=
  ["constructor"; "__defineGetter__"; "__defineSetter__"; "hasOwnProperty";
   "__lookupGetter__"; "__lookupSetter__"; "isPrototypeOf";
   "propertyIsEnumerable"; "toString"; "valueOf"; "__proto__";
   "toLocaleString"].

Definition isBuiltin (k : string) : bool := existsb (String.eqb k) builtins.

(** The data properties the program has added to [Object.prototype].  Each
    of them holds NaN: it is written by [Object.prototype.f += x], which
    stores [undefined + x] the first time and [NaN + x] from then on. *)
Record Proto : Type := {
  addedRevenue : bool;
  addedExpenses : bool;
  addedProfit : bool
}.

(** [Object.prototype] as the runtime provides it. *)
Definition pristine : Proto :=
  {| addedRevenue := false; addedExpenses := false; addedProfit := false |}.

Definition addRevenue (proto : Proto) : Proto :=
  {| addedRevenue := true; addedExpenses := addedExpenses proto;
     addedProfit := addedProfit proto |}.
Definition addExpenses (proto : Proto) : Proto :=
  {| addedRevenue := addedRevenue proto; addedExpenses := true;
     addedProfit := addedProfit proto |}.
Definition addProfit (proto : Proto) : Proto :=
  {| addedRevenue := addedRevenue proto;
     addedExpenses := addedExpenses proto; addedProfit := true |}.

(** [Object.prototype[k]]: what an object without an own property [k]
    answers for [o[k]]. *)
Definition inherited (proto : Proto) (k : string) : value :=
  if (String.eqb k "revenue" && addedRevenue proto)
     || (String.eqb k "expenses" && addedExpenses proto)
     || (String.eqb k "profit" && addedProfit proto)
  then VNumber NaN
  else if isBuiltin k then VBuiltin k
  else VUndefined.

(** [row[k]] *)
Definition prop (proto : Proto) (row : Row) (k : string) : value :=
  match get row k with Some v => v | None => inherited proto k end.

(** [if (!o[k]) o[k] = entry], for an object literal [o] used as an
    accumulator: without an own property [k], [o[k]] is what
    [Object.prototype] holds under [k]. *)
Definition ensure {T : Type} (proto : Proto) (o : Obj T) (k : string)
  (entry : T) : Obj T :=
  match get o k with
  | Some _ => o
  | None => if truthy (inherited proto k) then o else set o k entry
  end.

(** [o[k].f += x], after [ensure]: on the entry under [k] when there is
    one.  Otherwise [o[k]] is the truthy value [Object.prototype] holds
    under [k]: under [__proto__] it is [Object.prototype] itself, which
    receives the property [f], and under any other name it is a method of
    [Object.prototype], and the sum is stored on that function, where
    nothing reads it. *)
Definition addAt {T : Type} (addField : T -> T) (addProperty : Proto -> Proto)
  (proto : Proto) (o : Obj T) (k : string) : Proto * Obj T :=
  match get o k with
  | Some _ => (proto, modify o k addField)
  | None =>
      if String.eqb k "__proto__" then (addProperty proto, o) else (proto, o)
  end.

End JS.

(** ** The dashboard *)

Module Monthly.
(** An entry of [monthlyData]. *)
Record t : Type := mk {
  month : string;
  revenue : JS.number;
  profit : JS.number;
  sortKey : Z
}.
End Monthly.

Module Dept.
(** An entry of [deptStats]. *)
Record t : Type := mk {
  name : string;
  revenue : JS.number;
  expenses : JS.number;
  profit : JS.number
}.
End Dept.

Module Chart.
(** An entry of [deptChartData]: the department entry with its margin and
    its colour. *)
Record t : Type := mk {
  name : string;
  revenue : JS.number;
  expenses : JS.number;
  profit : JS.number;
  margin : JS.number;
  fill : string
}.
End Chart.

Module Dashboard.
Import JS.

(** Fuzzy match column names. *)
Definition findKey (row : Row) (candidates : list string) : option string :=
  let keys := map toLowerCase (Object_keys row) in
  match Array_find (fun c => Array_some (fun k => includes k c) keys)
           candidates with
  | None => None
  | Some found =>
      if String.eqb found "" then None
      else Array_find (fun k => includes (toLowerCase k) found)
              (Object_keys row)
  end.

(** Colors for charts. *)
Definition COLORS : list string :=
  ["#6366f1"; "#ec4899"; "#10b981"; "#f59e0b";
   "#06b6d4"; "#8b5cf6"; "#a855f7"; "#ef4444"].

(** The semantic columns [analytics] looks for. *)
Inductive Role : Type := Category | Revenue | Expense | Profit | Date | Id.

Definition candidates (r : Role) : list string :=
  match r with
  | Category => ["department"; "category"; "dept"; "group"]
  | Revenue => ["revenue"; "sales"; "amount"; "total"; "price"]
  | Expense => ["expense"; "cost"; "spending"]
  | Profit => ["profit"; "net"; "margin"]
  | Date => ["created_at"; "date"; "time"]
  | Id => ["id"; "order"; "name"]
  end.

Definition defaultKey (r : Role) : string :=
  match r with
  | Category => "department"
  | Revenue => "revenue"
  | Expense => "expenses"
  | Profit => "profit"
  | Date => "created_at"
  | Id => "id"
  end.

(** [k || d] for the result [k] of [findKey]. *)
Definition or_default (k : option string) (d : string) : string :=
  match k with
  | Some s => if String.eqb s "" then d else s
  | None => d
  end.

(** [findKey(sample, candidates) || default] *)
Definition resolve (r : Role) (sample : Row) : string :=
  or_default (findKey sample (candidates r)) (defaultKey r).

Record Keys : Type := {
  deptKey : string;
  revKey : string;
  expKey : string;
  profitKey : string;
  idKey : string;
  dateKey : string
}.

Definition keyOf (K : Keys) (r : Role) : string :=
  match r with
  | Category => deptKey K
  | Revenue => revKey K
  | Expense => expKey K
  | Profit => profitKey K
  | Date => dateKey K
  | Id => idKey K
  end.

(** Attempt to identify semantic columns. *)
Definition inferKeys (sample : Row) : Keys :=
  {| deptKey := resolve Category sample;
     revKey := resolve Revenue sample;
     expKey := resolve Expense sample;
     profitKey := resolve Profit sample;
     dateKey := resolve Date sample;
     idKey := resolve Id sample |}.

Section Engine.
Variable P : Platform.
Variable K : Keys.

(** [rev], [exp] and [profit] of the [forEach] body. *)
Definition revOf (proto : Proto) (row : Row) : number :=
  or_zero (ToNumber (prop proto row (revKey K))).

Definition expOf (proto : Proto) (row : Row) : number :=
  or_zero (ToNumber (prop proto row (expKey K))).

Definition profitOf (proto : Proto) (row : Row) : number :=
  if defined (prop proto row (profitKey K))
  then ToNumber (prop proto row (profitKey K))
  else sub (revOf proto row) (expOf proto row).

(** [month] and [sortKey] of the [forEach] body. *)
Definition monthOf (proto : Proto) (row : Row) : string * Z :=
  match Date_new P (prop proto row (dateKey K)) with
  | Some t => (monthYearLabel P t, getFullYear P t * 100 + getMonth P t)
  | None => ("Unknown", 0)
  end.

(** [dept] of the [forEach] body. *)
Definition deptOf (proto : Proto) (row : Row) : string :=
  ToString P (or (prop proto row (deptKey K)) (VString "Unassigned")).

(** The monthly part of the [forEach] body. *)
Definition forEachMonthly (proto : Proto) (monthlyData : Obj Monthly.t)
  (month : string) (sortKey : Z) (rev profit : number)
  : Proto * Obj Monthly.t :=
  let monthlyData :=
    ensure proto monthlyData month
      (Monthly.mk month (num 0) (num 0) sortKey) in
  let (proto, monthlyData) :=
    addAt
      (fun e => Monthly.mk (Monthly.month e) (add (Monthly.revenue e) rev)
                  (Monthly.profit e) (Monthly.sortKey e))
      addRevenue proto monthlyData month in
  addAt
    (fun e => Monthly.mk (Monthly.month e) (Monthly.revenue e)
                (add (Monthly.profit e) profit) (Monthly.sortKey e))
    addProfit proto monthlyData month.

(** The department part of the [forEach] body. *)
Definition forEachDept (proto : Proto) (deptStats : Obj Dept.t)
  (dept : string) (rev exp profit : number) : Proto * Obj Dept.t :=
  let deptStats :=
    ensure proto deptStats dept (Dept.mk dept (num 0) (num 0) (num 0)) in
  let (proto, deptStats) :=
    addAt
      (fun e => Dept.mk (Dept.name e) (add (Dept.revenue e) rev)
                  (Dept.expenses e) (Dept.profit e))
      addRevenue proto deptStats dept in
  let (proto, deptStats) :=
    addAt
      (fun e => Dept.mk (Dept.name e) (Dept.revenue e)
                  (add (Dept.expenses e) exp) (Dept.profit e))
      addExpenses proto deptStats dept in
  addAt
    (fun e => Dept.mk (Dept.name e) (Dept.revenue e) (Dept.expenses e)
                (add (Dept.profit e) profit))
    addProfit proto deptStats dept.

(** The body of [data.forEach(row => ...)], on [Object.prototype] and the
    two accumulators. *)
Definition forEachBody (acc : Proto * Obj Monthly.t * Obj Dept.t) (row : Row)
  : Proto * Obj Monthly.t * Obj Dept.t :=
  let '(proto, monthlyData, deptStats) := acc in
  let rev := revOf proto row in
  let exp := expOf proto row in
  let profit := profitOf proto row in
  let (month, sortKey) := monthOf proto row in
  let (proto, monthlyData) :=
    forEachMonthly proto monthlyData month sortKey rev profit in
  let dept := deptOf proto row in
  let (proto, deptStats) :=
    forEachDept proto deptStats dept rev exp profit in
  (proto, monthlyData, deptStats).

(** [data.forEach(row => ...)], from empty accumulators. *)
Definition forEach (proto : Proto) (data : list Row)
  : Proto * Obj Monthly.t * Obj Dept.t :=
  fold_left forEachBody data (proto, [], []).

(** Transform to arrays for charts and sort chronologically. *)
Definition monthlySeries (monthlyData : Obj Monthly.t) : list Monthly.t :=
  sort (fun a b => Monthly.sortKey a - Monthly.sortKey b)
       (Object_values monthlyData).

(** [l.map((d, index) => ...)] *)
Fixpoint mapi {A B : Type} (f : A -> nat -> B) (index : nat) (l : list A)
  : list B :=
  match l with
  | [] => []
  | d :: l' => f d index :: mapi f (S index) l'
  end.

Definition withColor (d : Dept.t) (index : nat) : Chart.t :=
  Chart.mk (Dept.name d) (Dept.revenue d) (Dept.expenses d) (Dept.profit d)
    (if gt0 (Dept.revenue d)
     then mul (div (Dept.profit d) (Dept.revenue d)) (num 100)
     else num 0)
    (nth (index mod List.length COLORS)%nat COLORS "").

(** Assign stable colors to departments based on alphabetical order. *)
Definition deptSeries (deptStats : Obj Dept.t) : list Chart.t :=
  mapi withColor 0
    (sort (fun a b => localeCompare P (Dept.name a) (Dept.name b))
          (Object_values deptStats)).

(** Top 5 expenses. *)
Definition topExpenses (deptChartData : list Chart.t) : list Chart.t :=
  slice0 5
    (sort (fun a b => sign (sub (Chart.expenses b) (Chart.expenses a)))
          deptChartData).

(** [{ ...row, _derivedProfit: profit }] *)
Definition withDerivedProfit (proto : Proto) (row : Row) : Row :=
  let rev := or_zero (ToNumber (prop proto row (revKey K))) in
  let exp := or_zero (ToNumber (prop proto row (expKey K))) in
  let profit :=
    if defined (prop proto row (profitKey K))
    then ToNumber (prop proto row (profitKey K))
    else sub rev exp in
  set row "_derivedProfit" (VNumber profit).

(** [row._derivedProfit] *)
Definition derivedProfit (proto : Proto) (row : Row) : number :=
  ToNumber (prop proto row "_derivedProfit").

(** Top 10 profitable orders. *)
Definition topProfitable (proto : Proto) (data : list Row) : list Row :=
  slice0 10
    (sort (fun a b =>
             sign (sub (derivedProfit proto b) (derivedProfit proto a)))
          (map (withDerivedProfit proto) data)).
End Engine.

Record Analytics : Type := {
  monthlyChartData : list Monthly.t;
  deptChartData : list Chart.t;
  expensesByDept : list Chart.t;
  topOrders : list Row;
  keys : Keys
}.

(** The [analytics] memo, computed with [Object.prototype] in the state
    [proto]: nothing for an empty table.  The top orders are read after
    the [forEach], with [Object.prototype] as the [forEach] has left
    it. *)
Definition analytics (P : Platform) (proto : Proto) (data : list Row)
  : option Analytics :=
  match data with
  | [] => None
  | sample :: _ =>
      let K := inferKeys sample in
      let '(after, monthlyData, deptStats) := forEach P K proto data in
      let deptChartData := deptSeries P deptStats in
      Some {| monthlyChartData := monthlySeries monthlyData;
              deptChartData := deptChartData;
              expensesByDept := topExpenses deptChartData;
              topOrders := topProfitable K after data;
              keys := K |}
  end.

(** The state in which the computation of [analytics] leaves
    [Object.prototype]. *)
Definition prototypeAfter (P : Platform) (proto : Proto) (data : list Row)
  : Proto :=
  match data with
  | [] => proto
  | sample :: _ => fst (fst (forEach P (inferKeys sample) proto data))
  end.

(** *** A reference host: English labels, a fixed offset from UTC *)

Definition monthNames : list string :=
  ["Jan"; "Feb"; "Mar"; "Apr"; "May"; "Jun";
   "Jul"; "Aug"; "Sep"; "Oct"; "Nov"; "Dec"].

Definition two_digits (z : Z) : string :=
  ((if (z <? 10)%Z then "0" else "") ++ string_of_Z z)%string.

(** The label of month [m] (0 to 11) of year [y]: the short English month
    name and the last two digits of the year. *)
Definition shortMonthLabel (y m : Z) : string :=
  (nth (Z.to_nat m) monthNames "" ++ " " ++ two_digits (y mod 100)%Z)%string.

(** Comparison by code units, as a stand-in for a collation. *)
Definition compareUnits (a b : string) : Z :=
  match String_as_OT.compare a b with
  | Lt => -1
  | Eq => 0
  | Gt => 1
  end.

(** Up to [n] digits of the fraction [r / d], stopping when it ends. *)
Fixpoint fraction_digits (n : nat) (r d : Z) : string :=
  match n with
  | O => ""
  | S n' =>
      if r =? 0 then ""
      else (string_of_Z (10 * r / d)%Z
            ++ fraction_digits n' (10 * r mod d)%Z d)%string
  end.

(** Plain decimal digits, as a stand-in for the digits the host prints. *)
Definition plainDecimal (q : Q) : string :=
  let n := Z.abs (Qnum q) in
  let d := Zpos (Qden q) in
  ((if (Qnum q <? 0)%Z then "-" else "") ++ string_of_Z (n / d)%Z
   ++ (if (n mod d =? 0)%Z then ""
       else "." ++ fraction_digits 20 (n mod d)%Z d))%string.

Definition host (offset : Z) : Platform :=
  {| LocalTZA := fun _ => offset;
     hostDateParse := fun _ => None;
     monthYearLabel := fun t =>
       let ym := civil_from_days ((t + offset) / msPerDay) in
       shortMonthLabel (fst ym) (snd ym);
     localeCompare := compareUnits;
     hostNumberToString := plainDecimal;
     nativeFunctionToString := fun name =>
       ("function " ++ name ++ "() { [native code] }")%string |}.

End Dashboard.

(** ** What the specification talks about *)

Module Spec.
Import JS Dashboard.

(** The sum of a list of numbers, accumulated from 0 as the engine does. *)
Definition total (l : list number) : number := fold_left add l (num 0).

(** The fallback the specification names for a role: the role's own
    lowercase name, and ["created_at"] for the date role. *)
Definition ownName (r : Role) : string :=
  match r with
  | Category => "category"
  | Revenue => "revenue"
  | Expense => "expense"
  | Profit => "profit"
  | Date => "created_at"
  | Id => "id"
  end.

(** No candidate of the role is contained in a column name of the row. *)
Definition unmatched (r : Role) (sample : Row) : Prop :=
  forall c k, In c (candidates r) -> In k (Object_keys sample) ->
    includes (toLowerCase k) c = false.

(** [c] is the first candidate of the list contained in at least one
    lowercased column name of the row. *)
Definition winning (cands : list string) (row : Row) (c : string) : Prop :=
  exists before after,
    cands = (before ++ c :: after)%list
    /\ (exists k, In k (Object_keys row) /\ includes (toLowerCase k) c = true)
    /\ (forall c' k, In c' before -> In k (Object_keys row) ->
           includes (toLowerCase k) c' = false).

(** [k] is the first column name of the row, in key order, whose lowercase
    form contains [c]. *)
Definition firstColumn (row : Row) (c k : string) : Prop :=
  exists before after,
    Object_keys row = (before ++ k :: after)%list
    /\ includes (toLowerCase k) c = true
    /\ (forall k', In k' before -> includes (toLowerCase k') c = false).

(** The category the specification gives a value: its string coercion,
    ["Unassigned"] when the value is empty or absent. *)
Definition claimedCategory (P : Platform) (v : value) : string :=
  match v with
  | VUndefined | VNull => "Unassigned"
  | VString s => if String.eqb s "" then "Unassigned" else s
  | _ => ToString P v
  end.

(** The colour a view shows for a category. *)
Definition colorOf (view : list Chart.t) (category : string) : option string :=
  option_map Chart.fill
    (List.find (fun e => String.eqb (Chart.name e) category) view).

(** The rows of the end-to-end example. *)
Definition exampleRows : list Row :=
  [ [("revenue", VNumber (num 100)); ("cost", VNumber (num 40));
     ("department", VString "Sales"); ("created_at", VString "2024-01-05")];
    [("revenue", VNumber (num 200)); ("cost", VNumber (num 50));
     ("department", VString "Sales"); ("created_at", VString "2024-02-10")];
    [("revenue", VNumber (num 50)); ("cost", VNumber (num 60));
     ("department", VString "Marketing"); ("created_at", VString "2024-01-20")] ].

(** [a] comes before [b] in the host's collation. *)
Definition Precedes (P : Platform) (a b : string) : Prop :=
  localeCompare P a b < 0 /\ localeCompare P b a > 0.

(** The host's collation is a total preorder. *)
Definition Collation (P : Platform) : Prop :=
  (forall a b, localeCompare P a b <= 0 \/ localeCompare P b a <= 0)
  /\ (forall a b c, localeCompare P a b <= 0 -> localeCompare P b c <= 0 ->
                    localeCompare P a c <= 0).

(** The host never labels a valid date ["Unknown"]. *)
Definition LabelsDates (P : Platform) : Prop :=
  forall t, monthYearLabel P t <> "Unknown".

(** The sums a department holds in [deptStats]; 0 before its first row. *)
Definition revenueUnder (deptStats : Obj Dept.t) (dept : string) : number :=
  match get deptStats dept with Some e => Dept.revenue e | None => num 0 end.
Definition expensesUnder (deptStats : Obj Dept.t) (dept : string) : number :=
  match get deptStats dept with Some e => Dept.expenses e | None => num 0 end.
Definition profitUnder (deptStats : Obj Dept.t) (dept : string) : number :=
  match get deptStats dept with Some e => Dept.profit e | None => num 0 end.

(** The three additions of the [forEach] body on a department entry. *)
Definition addRow (rev exp profit : number) (e : Dept.t) : Dept.t :=
  Dept.mk (Dept.name e)
    (add (Dept.revenue e) rev)
    (add (Dept.expenses e) exp)
    (add (Dept.profit e) profit).

(** The two additions of the [forEach] body on a month entry. *)
Definition addRowMonthly (rev profit : number) (e : Monthly.t) : Monthly.t :=
  Monthly.mk (Monthly.month e)
    (add (Monthly.revenue e) rev)
    (add (Monthly.profit e) profit)
    (Monthly.sortKey e).

(** The rows of the table that fall in a category. *)
Definition rowsOf (P : Platform) (K : Keys) (proto : Proto) (data : list Row)
  (dept : string) : list Row :=
  filter (fun row => String.eqb (deptOf P K proto row) dept) data.

(** The departments held by [deptStats]: one entry per name, each filed
    under its own name, which is no property name of [Object.prototype]. *)
Definition filedByName (ds : Obj Dept.t) : Prop :=
  NoDup (map fst ds)
  /\ Forall (fun p => Dept.name (snd p) = fst p /\ isBuiltin (fst p) = false)
       ds.

(** The months held by [monthlyData]: one entry per label, each filed
    under its own label. *)
Definition filedByMonth (md : Obj Monthly.t) : Prop :=
  NoDup (map fst md)
  /\ Forall (fun p => Monthly.month (snd p) = fst p
                      /\ isBuiltin (fst p) = false) md.

(** The "Unknown" bucket is the first entry of the monthly series. *)
Definition unknownFirst (a : Analytics) : Prop :=
  forall e, In e (monthlyChartData a) -> Monthly.month e = "Unknown" ->
            hd_error (monthlyChartData a) = Some e.

(** A table whose only row has a profit column that is not a number. *)
Definition malformedProfit : list Row :=
  [ [("revenue", VNumber (num 10)); ("profit", VString "abc")] ].

(** A table with a date before the common era and an unparseable date. *)
Definition earlyDate : list Row :=
  [ [("date", VString "-000001-06-15")]; [("date", VString "n/a")] ].

(** A row whose department is the number 0. *)
Definition departmentZero : Row := [("department", VNumber (num 0))].

(** The instants of the end-to-end example -- UTC midnight of 5 January,
    10 February and 20 January 2024 -- with the months they fall in. *)
Definition exampleInstants : list (Z * string) :=
  [ (1704412800000, "Jan 24");
    (1707523200000, "Feb 24");
    (1705708800000, "Jan 24") ].

(** At the instants of the example the host is within 14 hours of UTC and
    labels the month the English way; it collates ["Marketing"] before
    ["Sales"]. *)
Definition ExampleHost (P : Platform) : Prop :=
  Forall (fun i => Z.abs (LocalTZA P (fst i)) <= 14 * 3600000
                   /\ monthYearLabel P (fst i) = snd i)
         exampleInstants
  /\ Precedes P "Marketing" "Sales".

(** A table with a category named as a method of [Object.prototype]. *)
Definition namedConstructor : list Row :=
  [ [("department", VString "constructor"); ("revenue", VNumber (num 5))];
    [("department", VString "Sales"); ("revenue", VNumber (num 2))] ].

End Spec.

(** ** The rest of the application *)

Module Component.
Import JS Dashboard.

(** [l.slice(-n)] *)
Definition sliceLast {A : Type} (n : nat) (l : list A) : list A :=
  skipn (List.length l - n) l.

(** The double quote and the line feed. *)
Definition dq : string := String (ascii_of_nat 34) EmptyString.
Definition nl : string := String (ascii_of_nat 10) EmptyString.

(** *** Fetching: [checkTableExists] and [fetchData] *)

(** What the head query of [checkTableExists] does: it throws, or it
    returns with or without an error. *)
Inductive HeadQuery : Type :=
| HeadThrew
| HeadReturned (error : option string).

(** [checkTableExists(tableName)] *)
Definition checkTableExists (q : HeadQuery) : bool :=
  match q with
  | HeadReturned None => true
  | HeadReturned (Some _) => false
  | HeadThrew => false
  end.

(** What the select query of [fetchData] does: it throws an error with or
    without a message, or it returns rows (or null) and an error object
    (or null) with or without a message. *)
Inductive SelectQuery : Type :=
| SelectThrew (message : option string)
| SelectReturned (rows : option (list Row))
                 (fetchError : option (option string)).

Inductive RealtimeStatus : Type := connecting | connected | disconnected.

Record InsightData : Type := {
  summary : string;
  trends : list string;
  anomalies : list string
}.

(** The state of the [Dashboard] component. *)
Record State : Type := {
  data : list Row;
  loading : bool;
  error : option string;
  tableExists : bool;
  realtimeStatus : RealtimeStatus;
  insights : option InsightData;
  analyzing : bool;
  newTableInput : string
}.

(** The state a mounted component starts from. *)
Definition initial : State :=
  {| data := []; loading := true; error := None; tableExists := false;
     realtimeStatus := disconnected; insights := None; analyzing := false;
     newTableInput := "" |}.

(** [new Date(v).getTime()] *)
Definition getTime (P : Platform) (v : value) : number :=
  match Date_new P v with
  | Some t => num t
  | None => NaN
  end.

(** [dateK] of [fetchData]. *)
Definition dateK (rows : option (list Row)) : option string :=
  match rows with
  | Some (first :: _) => findKey first ["created_at"; "date"; "time"]
  | _ => None
  end.

(** The comparator of the sort by date. *)
Definition byDate (P : Platform) (proto : Proto) (dateK : option string)
  (a b : Row) : Z :=
  match dateK with
  | None => 0
  | Some k =>
      if String.eqb k "" then 0
      else sign (sub (getTime P (prop proto a k)) (getTime P (prop proto b k)))
  end.

(** [sortedRows] of [fetchData]: sort by date if possible. *)
Definition sortedRows (P : Platform) (proto : Proto)
  (rows : option (list Row)) : list Row :=
  match rows with
  | Some l => sort (byDate P proto (dateK rows)) l
  | None => []
  end.

(** [err.message || 'Failed to fetch data'] *)
Definition messageOf (message : option string) : string :=
  match message with
  | Some m => if String.eqb m "" then "Failed to fetch data" else m
  | None => "Failed to fetch data"
  end.

Definition notFound (tableName : string) : string :=
  ("Table " ++ dq ++ tableName ++ dq
   ++ " was not found or is not accessible.")%string.

(** The state a failed [fetchData] ends in. *)
Definition failed (found : bool) (message : option string) (st : State)
  : State :=
  {| data := data st; loading := false; error := Some (messageOf message);
     tableExists := found; realtimeStatus := disconnected;
     insights := insights st; analyzing := analyzing st;
     newTableInput := newTableInput st |}.

(** The state [fetchData] ends in, from what its two queries do, with
    [Object.prototype] in the state [proto]. *)
Definition fetchData (P : Platform) (proto : Proto) (tableName : string)
  (head : HeadQuery) (select : SelectQuery) (st : State) : State :=
  if checkTableExists head then
    match select with
    | SelectThrew message => failed true message st
    | SelectReturned _ (Some message) => failed true message st
    | SelectReturned rows None =>
        {| data := sortedRows P proto rows; loading := false; error := None;
           tableExists := true; realtimeStatus := disconnected;
           insights := insights st; analyzing := analyzing st;
           newTableInput := newTableInput st |}
    end
  else failed false (Some (notFound tableName)) st.

(** *** Live updates *)

(** [if (error)] on the error state: null and the empty string are
    falsy. *)
Definition hasError (st : State) : bool :=
  match error st with
  | Some m => negb (String.eqb m "")
  | None => false
  end.

(** The realtime effect subscribes unless
    [!tableExists || loading || error]. *)
Definition subscribes (st : State) : bool :=
  negb (negb (tableExists st) || loading st || hasError st).

(** The handler of an INSERT event:
    [setData(prev => [...prev, payload.new].slice(-1000))]. *)
Definition onInsert (row : Row) (st : State) : State :=
  {| data := sliceLast 1000 (data st ++ [row]); loading := loading st;
     error := error st; tableExists := tableExists st;
     realtimeStatus := realtimeStatus st; insights := insights st;
     analyzing := analyzing st; newTableInput := newTableInput st |}.

(** *** Rendering *)

(** What the component renders, with [Object.prototype] in the state
    [proto]. *)
Inductive Screen : Type :=
| Spinner
| ConnectionIssue (message : string)
| NoData
| Charts (a : Analytics).

Definition screen (P : Platform) (proto : Proto) (st : State) : Screen :=
  if loading st then Spinner
  else if hasError st
  then ConnectionIssue (match error st with Some m => m | None => "" end)
  else match data st, analytics P proto (data st) with
       | _ :: _, Some a => Charts a
       | _, _ => NoData
       end.

(** *** Insights: [generateInsights] and [triggerAnalysis] *)

(** The prompt of [generateInsights], a template literal. *)
Definition prompt (tableName : string) : string :=
  String.concat nl
    [EmptyString;
     "      You are a financial analyst. Analyze the following data from table "
       ++ dq ++ tableName ++ dq ++ ".";
     "      ";
     "      Focus on:";
     "      1. Revenue and Profit trends.";
     "      2. Departmental performance (expenses vs revenue).";
     "      3. Significant outliers in orders.";
     EmptyString;
     "      Return the response in JSON format with:";
     "      - summary: A financial executive summary.";
     "      - trends: List of key financial trends (e.g., "
       ++ dq ++ "Marketing expenses up 15%" ++ dq ++ ").";
     "      - anomalies: List of suspicious or notable records (e.g., "
       ++ dq ++ "Order #123 has negative margin" ++ dq ++ ").";
     "    "]%string.

(** What [ai.models.generateContent] does: it throws, or it answers with
    or without a text. *)
Inductive Response : Type :=
| Threw
| Replied (text : option string).

(** The insight service: whether a client was created from the API key,
    the model behind [generateContent], and the host's JSON. *)
Record Service : Type := {
  ai : bool;
  generateContent : string -> Response;
  JSON_stringify : list Row -> string;
  (** [JSON.parse(text)]: [None] when it throws, otherwise null or the
      value read as [InsightData] *)
  JSON_parse : string -> option (option InsightData)
}.

Definition unavailable : InsightData :=
  {| summary := "Could not generate financial insights at this time.";
     trends := []; anomalies := [] |}.

(** [generateInsights(tableName, data)] *)
Definition generateInsights (S : Service) (tableName : string)
  (data : list Row) : option InsightData :=
  if negb (ai S) || Nat.eqb (List.length data) 0 then None
  else
    let sampleData := sliceLast 30 data in
    let dataString := JSON_stringify S sampleData in
    match generateContent S
            ("Data: " ++ dataString ++ nl ++ nl ++ prompt tableName)%string
    with
    | Threw => Some unavailable
    | Replied None => None
    | Replied (Some text) =>
        if String.eqb text "" then None
        else match JSON_parse S text with
             | Some result => result
             | None => Some unavailable
             end
    end.

(** The state [triggerAnalysis] ends in. *)
Definition triggerAnalysis (S : Service) (tableName : string) (st : State)
  : State :=
  match data st with
  | [] => st
  | _ :: _ =>
      {| data := data st; loading := loading st; error := error st;
         tableExists := tableExists st; realtimeStatus := realtimeStatus st;
         insights := generateInsights S tableName (data st);
         analyzing := false; newTableInput := newTableInput st |}
  end.

(** *** The insights panel *)

(** The blocks [InsightsPanel] renders under its header. *)
Inductive Block : Type :=
| NoInsights
| Skeleton
| Content (summary : string) (trends anomalies : option (list string)).

(** A list section: rendered when the list is not empty. *)
Definition listSection (l : list string) : option (list string) :=
  if Nat.ltb 0 (List.length l) then Some l else None.

Definition panel (insights : option InsightData) (loading : bool)
  : list Block :=
  ((match insights with
    | None => if negb loading then [NoInsights] else []
    | Some _ => []
    end)
   ++ (match insights with
       | None => if loading then [Skeleton] else []
       | Some _ => []
       end)
   ++ (match insights with
       | Some i =>
           [Content (summary i) (listSection (trends i))
              (listSection (anomalies i))]
       | None => []
       end))%list.

End Component.

(** ** What the further properties talk about *)

Module Notions.
Import JS Dashboard Spec Component.

(** [x <= y] on numbers; NaN is not comparable. *)
Definition leb (x y : number) : bool :=
  match x, y with
  | NaN, _ | _, NaN => false
  | Infinity true, _ => true
  | _, Infinity false => true
  | Infinity false, _ => false
  | _, Infinity true => false
  | Fin a, Fin b => Qle_bool a b
  end.

(** The list runs from the largest [f] to the smallest. *)
Definition descending {A : Type} (f : A -> number) (l : list A) : Prop :=
  StronglySorted (fun a b => leb (f b) (f a) = true) l.

(** The sum an accumulator holds under a key; 0 when the key is new. *)
Definition sumUnder {T : Type} (f : T -> number) (o : Obj T) (k : string)
  : number :=
  match get o k with Some e => f e | None => num 0 end.

(** What one pass of the [forEach] body does to an accumulator: the entry
    under [k] is updated; a missing entry is first created, unless [k] is
    a property name of [Object.prototype]. *)
Definition file {T : Type} (o : Obj T) (k : string) (entry : T) (f : T -> T)
  : Obj T :=
  match get o k with
  | Some _ => modify o k f
  | None => if isBuiltin k then o else (o ++ [(k, f entry)])%list
  end.

(** The rows of the table that fall in a month. *)
Definition rowsIn (P : Platform) (K : Keys) (proto : Proto) (data : list Row)
  (label : string) : list Row :=
  filter (fun row => String.eqb (fst (monthOf P K proto row)) label) data.

(** The entry a month starts from. *)
Definition newMonth (P : Platform) (K : Keys) (proto : Proto) (row : Row)
  : Monthly.t :=
  Monthly.mk (fst (monthOf P K proto row)) (num 0) (num 0)
    (snd (monthOf P K proto row)).

(** The entry a department starts from. *)
Definition newDept (P : Platform) (K : Keys) (proto : Proto) (row : Row)
  : Dept.t :=
  Dept.mk (deptOf P K proto row) (num 0) (num 0) (num 0).

(** The row is filed neither under the month nor under the category
    [__proto__], so that the [forEach] body leaves [Object.prototype] as
    it is. *)
Definition untouched (P : Platform) (K : Keys) (proto : Proto) (row : Row)
  : Prop :=
  fst (monthOf P K proto row) <> "__proto__"
  /\ deptOf P K proto row <> "__proto__".

(** [Object.prototype] once the three additions of the [forEach] body
    have written on it. *)
Definition allAdded : Proto :=
  {| addedRevenue := true; addedExpenses := true; addedProfit := true |}.

(** A table whose first row has the category [__proto__]. *)
Definition namedProto : list Row :=
  [ [("department", VString "__proto__"); ("revenue", VNumber (num 1))];
    [("department", VString "Sales"); ("revenue", VNumber (num 10));
     ("cost", VNumber (num 4))] ].



(** The time value of a row's date, for a row with a valid date. *)
Definition timeOf (P : Platform) (proto : Proto) (k : string) (row : Row) : Z :=
  match Date_new P (prop proto row k) with Some t => t | None => 0 end.

(** A service whose model always throws. *)
Definition failing : Service :=
  {| ai := true; generateContent := fun _ => Threw;
     JSON_stringify := fun _ => ""; JSON_parse := fun _ => None |}.

End Notions.

(** ** Properties of the runtime *)

Module JSFacts.
Import JS Notions.
Local Open Scope list_scope.

(** *** Sorting *)

Section SortFacts.
Context {A : Type} (cmp : A -> A -> Z).

Lemma insert_perm (x : A) (l : list A) :
  Permutation (insert cmp x l) (x :: l).
Proof.
  induction l as [|y l IH]; simpl; [reflexivity|].
  destruct (cmp x y <=? 0); [reflexivity|].
  rewrite IH. apply perm_swap.
Qed.

Lemma sort_perm (l : list A) : Permutation (sort cmp l) l.
Proof.
  induction l as [|x l IH]; simpl; [reflexivity|].
  rewrite insert_perm. now constructor.
Qed.

Lemma sort_In (l : list A) (x : A) : In x (sort cmp l) <-> In x l.
Proof.
  split; apply Permutation_in; [|symmetry]; apply sort_perm.
Qed.
End SortFacts.

(** Sorting commutes with a map the comparator factors through. *)
Lemma sort_map {A B : Type} (f : A -> B) (cmp : B -> B -> Z) (l : list A) :
  map f (sort (fun a b => cmp (f a) (f b)) l) = sort cmp (map f l).
Proof.
  induction l as [|x l IH]; simpl; [reflexivity|].
  rewrite <- IH. generalize (sort (fun a b => cmp (f a) (f b)) l) as s.
  induction s as [|y s IHs]; simpl; [reflexivity|].
  destruct (cmp (f x) (f y) <=? 0); simpl; [reflexivity|].
  now rewrite IHs.
Qed.

(** A sort by a total preorder yields an ascending list. *)
Section SortByOrder.
Context {A : Type} (cmp : A -> A -> Z).
Hypothesis cmp_total : forall a b, cmp a b <= 0 \/ cmp b a <= 0.
Hypothesis cmp_trans :
  forall a b c, cmp a b <= 0 -> cmp b c <= 0 -> cmp a c <= 0.

Lemma insert_sorted (x : A) (l : list A) :
  StronglySorted (fun a b => cmp a b <= 0) l ->
  StronglySorted (fun a b => cmp a b <= 0) (insert cmp x l).
Proof.
  induction 1 as [|y l Hl IH Hy]; simpl.
  - repeat constructor.
  - destruct (Z.leb_spec (cmp x y) 0) as [Hle|Hgt].
    + constructor; [now constructor|].
      constructor; [exact Hle|].
      eapply Forall_impl; [|exact Hy]. intros z Hz. now apply (cmp_trans x y z).
    + constructor; [exact IH|].
      eapply Permutation_Forall; [symmetry; apply insert_perm|].
      constructor; [|exact Hy].
      destruct (cmp_total x y); [lia|assumption].
Qed.

Lemma sort_sorted (l : list A) :
  StronglySorted (fun a b => cmp a b <= 0) (sort cmp l).
Proof.
  induction l as [|x l IH]; simpl; [constructor|].
  now apply insert_sorted.
Qed.
End SortByOrder.

(** A sort by an integer key yields ascending keys. *)
Lemma sort_ascending {A : Type} (key : A -> Z) (l : list A) :
  StronglySorted (fun a b => key a <= key b)
    (sort (fun a b => key a - key b) l).
Proof.
  assert (H : StronglySorted (fun a b => key a - key b <= 0)
                (sort (fun a b => key a - key b) l)).
  { apply sort_sorted; intros; lia. }
  induction H as [|x s _ IH Hx]; constructor; [exact IH|].
  eapply Forall_impl; [|exact Hx]. simpl. intros; lia.
Qed.

(** *** Objects *)

Section ObjFacts.
Context {T : Type}.
Implicit Types (o : Obj T) (k : string) (v : T) (f : T -> T).

Lemma get_None o k : get o k = None <-> ~ In k (map fst o).
Proof.
  induction o as [|[k' v'] o IH]; simpl; [tauto|].
  destruct (String.eqb_spec k k') as [->|Hne].
  - split; [discriminate|]. intros H. exfalso. auto.
  - rewrite IH. split; [intros H [E|I]; [congruence|auto]|tauto].
Qed.

Lemma In_get o k v : NoDup (map fst o) -> In (k, v) o -> get o k = Some v.
Proof.
  induction o as [|[k' v'] o IH]; simpl; [tauto|].
  intros Hnd [E|I].
  - injection E as -> ->. now rewrite String.eqb_refl.
  - inversion Hnd as [|? ? Hk Hnd']; subst.
    destruct (String.eqb_spec k k') as [->|_]; [|auto].
    exfalso. apply Hk. change k' with (fst (k', v)). now apply in_map.
Qed.

Lemma set_new o k v : get o k = None -> set o k v = (o ++ [(k, v)])%list.
Proof.
  induction o as [|[k' v'] o IH]; simpl; [reflexivity|].
  destruct (String.eqb k k'); [discriminate|].
  intros H. now rewrite IH.
Qed.

Lemma modify_new o k v f :
  get o k = None ->
  modify (o ++ [(k, v)]) k f = (o ++ [(k, f v)])%list.
Proof.
  induction o as [|[k' v'] o IH]; simpl.
  - now rewrite String.eqb_refl.
  - destruct (String.eqb k k'); [discriminate|].
    intros H. now rewrite IH.
Qed.

Lemma modify_modify o k f g :
  modify (modify o k f) k g = modify o k (fun v => g (f v)).
Proof.
  induction o as [|[k' v'] o IH]; simpl; [reflexivity|].
  destruct (String.eqb k k') eqn:E; simpl; rewrite E; [reflexivity|].
  now rewrite IH.
Qed.

Lemma modify_keys o k f : map fst (modify o k f) = map fst o.
Proof.
  induction o as [|[k' v'] o IH]; simpl; [reflexivity|].
  destruct (String.eqb k k'); simpl; [reflexivity|now rewrite IH].
Qed.

Lemma get_modify o k k' f :
  get (modify o k f) k' =
  if String.eqb k' k then option_map f (get o k) else get o k'.
Proof.
  induction o as [|[k0 v0] o IH]; simpl.
  - now destruct (String.eqb k' k).
  - destruct (String.eqb_spec k k0) as [->|Hne]; simpl.
    + destruct (String.eqb_spec k' k0) as [->|_]; reflexivity.
    + rewrite IH. destruct (String.eqb_spec k' k0) as [->|_]; [|reflexivity].
      destruct (String.eqb_spec k0 k) as [->|_]; [congruence|reflexivity].
Qed.

Lemma get_set o k v k' :
  get (set o k v) k' = if String.eqb k' k then Some v else get o k'.
Proof.
  induction o as [|[k0 v0] o IH]; simpl.
  - reflexivity.
  - destruct (String.eqb_spec k k0) as [->|Hne]; simpl.
    + destruct (String.eqb_spec k' k0); reflexivity.
    + rewrite IH. destruct (String.eqb_spec k' k0) as [->|_]; [|reflexivity].
      destruct (String.eqb_spec k0 k) as [->|_]; [congruence|reflexivity].
Qed.

Lemma get_snoc o k v k' :
  get o k = None ->
  get (o ++ [(k, v)]) k' = if String.eqb k' k then Some v else get o k'.
Proof.
  intros H. rewrite <- (set_new o k v H). apply get_set.
Qed.

Lemma modify_Forall (Q : string * T -> Prop) o k f :
  (forall v, Q (k, v) -> Q (k, f v)) -> Forall Q o -> Forall Q (modify o k f).
Proof.
  intros Hf. induction 1 as [|[k' v'] o Hp Ho IH]; simpl; [constructor|].
  destruct (String.eqb_spec k k') as [->|_]; constructor; auto.
Qed.

Lemma NoDup_snoc (l : list string) k : ~ In k l -> NoDup l -> NoDup (l ++ [k]).
Proof.
  intros Hk Hl. apply (Permutation_NoDup (l := k :: l)).
  - apply Permutation_cons_append.
  - now constructor.
Qed.

Lemma own_properties_perm o : Permutation (own_properties o) o.
Proof.
  unfold own_properties. rewrite sort_perm.
  induction o as [|p o IH]; simpl; [reflexivity|].
  destruct (is_index p); simpl.
  - now constructor.
  - rewrite <- Permutation_middle. now constructor.
Qed.

Lemma Object_values_perm o : Permutation (Object_values o) (map snd o).
Proof. apply Permutation_map, own_properties_perm. Qed.
End ObjFacts.

(** *** [Object.prototype] *)

Lemma inherited_builtin (proto : Proto) (k : string) :
  isBuiltin k = true -> inherited proto k = VBuiltin k.
Proof.
  intros H. unfold inherited.
  destruct (String.eqb_spec k "revenue") as [->|_]; [discriminate H|].
  destruct (String.eqb_spec k "expenses") as [->|_]; [discriminate H|].
  destruct (String.eqb_spec k "profit") as [->|_]; [discriminate H|].
  simpl. now rewrite H.
Qed.

Lemma inherited_plain (proto : Proto) (k : string) :
  isBuiltin k = false ->
  inherited proto k = VUndefined \/ inherited proto k = VNumber NaN.
Proof.
  intros H. unfold inherited. rewrite H.
  destruct (_ || _); auto.
Qed.

(** Under a name, [Object.prototype] holds a truthy value exactly when
    the name is one of its own. *)
Lemma truthy_inherited (proto : Proto) (k : string) :
  truthy (inherited proto k) = isBuiltin k.
Proof.
  destruct (isBuiltin k) eqn:B.
  - now rewrite inherited_builtin.
  - destruct (inherited_plain proto k B) as [-> | ->]; reflexivity.
Qed.

(** What a row answers under a name is the same in every state of
    [Object.prototype], except that undefined may have become NaN. *)
Lemma prop_indep (proto proto' : Proto) (row : Row) (k : string) :
  prop proto row k = prop proto' row k
  \/ ((prop proto row k = VUndefined \/ prop proto row k = VNumber NaN)
      /\ (prop proto' row k = VUndefined \/ prop proto' row k = VNumber NaN)).
Proof.
  unfold prop. destruct (get row k); [now left|].
  destruct (isBuiltin k) eqn:B.
  - left. now rewrite !inherited_builtin.
  - right. split; now apply inherited_plain.
Qed.

(** *** Accumulators *)

Section FileFacts.
Context {T : Type}.
Implicit Types (o : Obj T) (k : string) (entry : T) (f : T -> T).

Lemma ensure_addAt proto o k entry f (mark : Proto -> Proto) :
  addAt f mark proto (ensure proto o k entry) k
  = match get o k with
    | Some _ => (proto, modify o k f)
    | None =>
        if String.eqb k "__proto__" then (mark proto, o)
        else if isBuiltin k then (proto, o)
        else (proto, o ++ [(k, f entry)])
    end.
Proof.
  unfold ensure, addAt. destruct (get o k) eqn:E.
  - now rewrite E.
  - rewrite truthy_inherited. destruct (isBuiltin k) eqn:B.
    + rewrite E. now destruct (String.eqb k "__proto__").
    + rewrite get_set, String.eqb_refl, (set_new _ _ _ E).
      rewrite (modify_new _ _ _ _ E).
      destruct (String.eqb_spec k "__proto__") as [->|_];
        [discriminate B|reflexivity].
Qed.

(** A further [o[k].f += x] on the same key. *)
Lemma addAt_again proto o k f g (mark mark' : Proto -> Proto) :
  (let (proto', o') := addAt f mark proto o k in addAt g mark' proto' o' k)
  = match get o k with
    | Some _ => (proto, modify o k (fun e => g (f e)))
    | None =>
        if String.eqb k "__proto__" then (mark' (mark proto), o)
        else (proto, o)
    end.
Proof.
  unfold addAt. destruct (get o k) eqn:E.
  - rewrite get_modify, String.eqb_refl, E. simpl. now rewrite modify_modify.
  - destruct (String.eqb k "__proto__"); now rewrite E.
Qed.

Lemma get_file o k entry f k' :
  get (file o k entry f) k'
  = if String.eqb k' k
    then match get o k with
         | Some e => Some (f e)
         | None => if isBuiltin k then None else Some (f entry)
         end
    else get o k'.
Proof.
  unfold file. destruct (get o k) eqn:E.
  - rewrite get_modify. destruct (String.eqb_spec k' k) as [->|_];
      [now rewrite E|reflexivity].
  - destruct (isBuiltin k).
    + destruct (String.eqb_spec k' k) as [->|_]; [exact E|reflexivity].
    + now rewrite (get_snoc _ _ _ _ E).
Qed.

Lemma keys_file o k entry f k' :
  In k' (map fst (file o k entry f))
  <-> In k' (map fst o) \/ (k = k' /\ isBuiltin k' = false).
Proof.
  unfold file. destruct (get o k) eqn:E.
  - rewrite modify_keys. split; [auto|]. intros [H|[<- _]]; [exact H|].
    destruct (in_dec string_dec k (map fst o)) as [H|H]; [exact H|].
    apply get_None in H. congruence.
  - destruct (isBuiltin k) eqn:B.
    + split; [auto|]. intros [H|[<- H]]; [exact H|congruence].
    + rewrite map_app, in_app_iff. simpl. split.
      * intros [H|[<-|[]]]; auto.
      * intros [H|[<- _]]; auto.
Qed.

Lemma file_NoDup o k entry f :
  NoDup (map fst o) -> NoDup (map fst (file o k entry f)).
Proof.
  intros H. unfold file. destruct (get o k) eqn:E.
  - now rewrite modify_keys.
  - destruct (isBuiltin k); [exact H|].
    rewrite map_app. simpl. apply NoDup_snoc; [|exact H]. now apply get_None.
Qed.

Lemma file_Forall (Q : string * T -> Prop) o k entry f :
  (forall v, Q (k, v) -> Q (k, f v)) ->
  (isBuiltin k = false -> Q (k, f entry)) ->
  Forall Q o -> Forall Q (file o k entry f).
Proof.
  intros Hf He Ho. unfold file. destruct (get o k).
  - now apply modify_Forall.
  - destruct (isBuiltin k) eqn:B; [exact Ho|].
    apply Forall_app. split; [exact Ho|]. constructor; auto.
Qed.
End FileFacts.

End JSFacts.

(** ** Properties of the dashboard *)

Module DashboardFacts.
Import JS Dashboard Spec Notions JSFacts.
Local Open Scope list_scope.

(** *** Column inference *)

Lemma find_first {A : Type} (p : A -> bool) (l : list A) (x : A) :
  List.find p l = Some x <->
  exists before after,
    l = before ++ x :: after /\ p x = true
    /\ (forall y, In y before -> p y = false).
Proof.
  split.
  - induction l as [|y l IH]; simpl; [discriminate|].
    destruct (p y) eqn:E.
    + intros [= ->]. exists [], l. repeat split; auto. intros ? [].
    + intros H. destruct (IH H) as (b & a & -> & Hx & Hb).
      exists (y :: b), a. repeat split; auto.
      intros z [<-|Hz]; auto.
  - intros (b & a & -> & Hx & Hb).
    induction b as [|y b IH]; simpl.
    + now rewrite Hx.
    + rewrite (Hb y (or_introl eq_refl)). apply IH.
      intros z Hz. apply Hb. now right.
Qed.

Lemma find_none {A : Type} (p : A -> bool) (l : list A) :
  (forall x, In x l -> p x = false) -> List.find p l = None.
Proof.
  induction l as [|y l IH]; simpl; [reflexivity|].
  intros H. rewrite (H y (or_introl eq_refl)). apply IH. auto.
Qed.

(** Some lowercased column name of the row contains [c]. *)
Lemma some_column (row : Row) (c : string) :
  Array_some (fun k => includes k c) (map toLowerCase (Object_keys row)) = true
  <-> exists k, In k (Object_keys row) /\ includes (toLowerCase k) c = true.
Proof.
  unfold Array_some. rewrite existsb_exists. split.
  - intros (x & Hx & Hc). apply in_map_iff in Hx as (k & <- & Hk). eauto.
  - intros (k & Hk & Hc). exists (toLowerCase k). split; [|exact Hc].
    now apply in_map.
Qed.

Lemma no_column (row : Row) (c : string) :
  (forall k, In k (Object_keys row) -> includes (toLowerCase k) c = false) ->
  Array_some (fun k => includes k c) (map toLowerCase (Object_keys row)) = false.
Proof.
  intros H. destruct (Array_some _ _) eqn:E; [|reflexivity].
  apply some_column in E as (k & Hk & Hc). now rewrite (H k Hk) in Hc.
Qed.

Lemma candidates_nonempty (r : Role) (c : string) :
  In c (candidates r) -> c <> "".
Proof.
  destruct r; simpl; intros H;
    repeat (destruct H as [<-|H]; [discriminate|]); destruct H.
Qed.

Lemma defaultKey_nonempty (r : Role) : defaultKey r <> "".
Proof. destruct r; discriminate. Qed.

Lemma or_default_nonempty (k : option string) (d : string) :
  d <> "" -> or_default k d <> "".
Proof.
  intros Hd. destruct k as [s|]; simpl; [|exact Hd].
  destruct (String.eqb_spec s ""); assumption.
Qed.

Lemma includes_empty (c : string) : includes "" c = true -> c = "".
Proof. destruct c; [reflexivity|discriminate]. Qed.

Lemma findKey_Some (row : Row) (cands : list string) (k : string) :
  findKey row cands = Some k ->
  In k (Object_keys row) /\ k <> ""
  /\ exists c, In c cands /\ c <> "" /\ includes (toLowerCase k) c = true.
Proof.
  unfold findKey, Array_find.
  destruct (List.find _ cands) as [c|] eqn:Hc; [|discriminate].
  apply List.find_some in Hc as [Hin _].
  destruct (String.eqb_spec c "") as [_|Hne]; [discriminate|].
  intros Hk. apply List.find_some in Hk as [Hkin Hinc].
  split; [exact Hkin|]. split.
  - intros ->. apply includes_empty in Hinc. contradiction.
  - exists c. auto.
Qed.

Lemma default_contains_candidate (r : Role) :
  exists c, In c (candidates r)
            /\ includes (toLowerCase (defaultKey r)) c = true.
Proof.
  destruct r; eexists; (split; [left; reflexivity|reflexivity]).
Qed.

(** The key of a role contains, in lowercase, a candidate of the role. *)
Lemma resolve_candidate (r : Role) (sample : Row) :
  exists c, In c (candidates r)
            /\ includes (toLowerCase (resolve r sample)) c = true.
Proof.
  unfold resolve. destruct (findKey sample (candidates r)) as [k|] eqn:E.
  - apply findKey_Some in E as (_ & Hne & c & Hc & _ & Hinc).
    simpl. destruct (String.eqb_spec k ""); [contradiction|]. eauto.
  - apply default_contains_candidate.
Qed.

(** No property name of [Object.prototype] contains a candidate. *)
Lemma builtin_no_candidate (r : Role) (k c : string) :
  isBuiltin k = true -> In c (candidates r) ->
  includes (toLowerCase k) c = false.
Proof.
  intros Hk Hc. unfold isBuiltin in Hk.
  apply existsb_exists in Hk as (b & Hb & E). apply String.eqb_eq in E.
  subst b. simpl in Hb.
  repeat (destruct Hb as [<-|Hb];
          [destruct r; simpl in Hc;
           repeat (destruct Hc as [<-|Hc]; [reflexivity|]); destruct Hc|]).
  destruct Hb.
Qed.

(** The key of a role is no property name of [Object.prototype]. *)
Lemma resolve_plain (r : Role) (sample : Row) :
  isBuiltin (resolve r sample) = false.
Proof.
  destruct (isBuiltin (resolve r sample)) eqn:B; [|reflexivity].
  destruct (resolve_candidate r sample) as (c & Hc & Hinc).
  now rewrite (builtin_no_candidate r _ c B Hc) in Hinc.
Qed.

(** C8: for every sample row and every role, when [c] is the first
    candidate of the role's list that some lowercased column name of the
    row contains, [findKey] returns the first column name of the row, in
    key order and with its own case, whose lowercase form contains [c]. *)
Theorem findKey_first_candidate_first_column
  (r : Role) (row : Row) (c : string) :
  winning (candidates r) row c ->
  exists k, findKey row (candidates r) = Some k /\ firstColumn row c k.
Proof.
  intros (before & after & Hc & Hex & Hbefore).
  assert (Hin : In c (candidates r)).
  { rewrite Hc. apply in_elt. }
  assert (Hfound :
    Array_find (fun c => Array_some (fun k => includes k c)
           (map toLowerCase (Object_keys row)))
               (candidates r) = Some c).
  { apply find_first. exists before, after. repeat split.
    - exact Hc.
    - now apply some_column.
    - intros c' Hc'. apply no_column. intros k Hk. now apply Hbefore. }
  unfold findKey. rewrite Hfound.
  destruct (String.eqb_spec c "") as [E|_].
  { now apply candidates_nonempty in Hin. }
  destruct (Array_find (fun k => includes (toLowerCase k) c) (Object_keys row))
    as [k|] eqn:Hk.
  - exists k. split; [reflexivity|]. now apply find_first in Hk.
  - exfalso. destruct Hex as (k & Hin' & Hinc).
    unfold Array_find in Hk.
    pose proof (find_none_iff := List.find_none _ _ Hk k Hin').
    simpl in find_none_iff. congruence.
Qed.

Lemma findKey_first_candidate_first_column_witness :
  winning (candidates Expense) (hd [] exampleRows) "cost"
  /\ exists k, findKey (hd [] exampleRows) (candidates Expense) = Some k
               /\ firstColumn (hd [] exampleRows) "cost" k.
Proof.
  assert (W : winning (candidates Expense) (hd [] exampleRows) "cost").
  { exists ["expense"], ["spending"]. repeat split.
    - exists "cost". split; [simpl; tauto|reflexivity].
    - intros c' k [<-|[]] Hk. simpl in Hk.
      repeat (destruct Hk as [<-|Hk]; [reflexivity|]). destruct Hk. }
  split; [exact W|].
  exact (findKey_first_candidate_first_column Expense _ "cost" W).
Defined.

Lemma unmatched_findKey (r : Role) (sample : Row) :
  unmatched r sample -> findKey sample (candidates r) = None.
Proof.
  intros H. unfold findKey. unfold Array_find at 1.
  rewrite find_none; [reflexivity|].
  intros c Hc. apply no_column. intros k Hk. now apply H.
Qed.

(** C4, as amended: for every sample row, the key of a role is never the
    empty string; when no candidate of the role is contained in a column
    name, [findKey] finds nothing and the role's key is the fixed literal
    of the code -- ["department"], ["revenue"], ["expenses"], ["profit"],
    ["created_at"], ["id"]. *)
Theorem unresolved_role_takes_default (r : Role) (sample : Row) :
  resolve r sample <> ""
  /\ (unmatched r sample ->
      findKey sample (candidates r) = None
      /\ resolve r sample = defaultKey r
      /\ keyOf (inferKeys sample) r = defaultKey r).
Proof.
  split.
  - apply or_default_nonempty, defaultKey_nonempty.
  - intros H. pose proof (unmatched_findKey r sample H) as E.
    assert (R : resolve r sample = defaultKey r).
    { unfold resolve. now rewrite E. }
    repeat split; auto. destruct r; exact R.
Qed.

Lemma unresolved_role_takes_default_witness :
  unmatched Profit (hd [] exampleRows)
  /\ resolve Profit (hd [] exampleRows) = "profit"
  /\ unmatched Date []
  /\ resolve Date [] = "created_at".
Proof.
  assert (U : unmatched Profit (hd [] exampleRows)).
  { intros c k Hc Hk. simpl in Hc, Hk.
    repeat (destruct Hc as [<-|Hc];
            [repeat (destruct Hk as [<-|Hk]; [reflexivity|]); destruct Hk|]).
    destruct Hc. }
  assert (V : unmatched Date []) by (intros c k _ []).
  split; [exact U|]. split.
  - exact (proj1 (proj2 (proj2 (unresolved_role_takes_default Profit _) U))).
  - split; [exact V|].
    exact (proj1 (proj2 (proj2 (unresolved_role_takes_default Date _) V))).
Defined.

(** C4, as stated, fails: the unresolved expense role is keyed
    ["expenses"], not by the role's own name. *)
Lemma unresolved_role_not_own_name :
  ~ (forall r sample, unmatched r sample -> resolve r sample = ownName r).
Proof.
  intros H. specialize (H Expense []).
  assert (U : unmatched Expense []) by (intros c k _ []).
  specialize (H U). discriminate H.
Qed.

(** *** The row normalizer *)

Lemma derivedProfit_withDerivedProfit (K : Keys) (proto proto' : Proto)
  (row : Row) :
  derivedProfit proto' (withDerivedProfit K proto row) = profitOf K proto row.
Proof.
  unfold derivedProfit, withDerivedProfit, prop.
  rewrite get_set, String.eqb_refl. reflexivity.
Qed.

(** C2: for every row, resolved role keys and state of
    [Object.prototype], a defined [row[profitKey]] -- the number 0
    included -- makes the row's profit its numeric coercion, and an absent
    one makes it the row's revenue minus its expense, both in the
    [forEach] body and in [topOrders]: presence, not truthiness,
    decides. *)
Theorem profit_by_presence (K : Keys) (proto : Proto) (row : Row) :
  (defined (prop proto row (profitKey K)) = true ->
     profitOf K proto row = ToNumber (prop proto row (profitKey K))
     /\ derivedProfit proto (withDerivedProfit K proto row)
        = ToNumber (prop proto row (profitKey K)))
  /\ (prop proto row (profitKey K) = VNumber (num 0) ->
      profitOf K proto row = num 0
      /\ derivedProfit proto (withDerivedProfit K proto row) = num 0)
  /\ (prop proto row (profitKey K) = VUndefined ->
      profitOf K proto row = sub (revOf K proto row) (expOf K proto row)
      /\ derivedProfit proto (withDerivedProfit K proto row)
         = sub (revOf K proto row) (expOf K proto row)).
Proof.
  rewrite derivedProfit_withDerivedProfit. unfold profitOf.
  split; [|split]; intros H; rewrite H; split; reflexivity.
Qed.

Lemma profit_by_presence_witness :
  let stated := [("revenue", VNumber (num 7)); ("profit", VNumber (num 0))] in
  let derived := [("revenue", VNumber (num 7)); ("cost", VNumber (num 2))] in
  profitOf (inferKeys stated) pristine stated = num 0
  /\ profitOf (inferKeys derived) pristine derived = num 5.
Proof.
  intros stated derived. split.
  - exact (proj1 (proj1 (proj2 (profit_by_presence (inferKeys stated) pristine
                                  stated)) eq_refl)).
  - exact (proj1 (proj2 (proj2 (profit_by_presence (inferKeys derived) pristine
                                  derived)) eq_refl)).
Defined.

(** C10: for every row whose resolved profit column holds null, the profit
    is the numeric coercion of null, 0, in the [forEach] body and in
    [topOrders], not the revenue minus the expense. *)
Theorem null_profit_is_zero (K : Keys) (proto : Proto) (row : Row) :
  prop proto row (profitKey K) = VNull ->
  defined (prop proto row (profitKey K)) = true
  /\ profitOf K proto row = num 0
  /\ derivedProfit proto (withDerivedProfit K proto row) = num 0.
Proof.
  intros H. rewrite derivedProfit_withDerivedProfit. unfold profitOf.
  rewrite H. repeat split.
Qed.

Lemma null_profit_is_zero_witness :
  let row := [("revenue", VNumber (num 7)); ("cost", VNumber (num 2));
              ("profit", VNull)] in
  profitOf (inferKeys row) pristine row = num 0
  /\ sub (revOf (inferKeys row) pristine row) (expOf (inferKeys row) pristine row)
     = num 5.
Proof.
  intros row. split.
  - exact (proj1 (proj2 (null_profit_is_zero (inferKeys row) pristine row
                           eq_refl))).
  - reflexivity.
Defined.

(** C3, at the failing input: a row whose profit column holds ["abc"]
    leaves NaN in the profit of its month and of its department, while
    its revenue is summed as a number. *)
Theorem malformed_profit_poisons_sums (P : Platform) (proto : Proto) :
  exists a,
    analytics P proto malformedProfit = Some a
    /\ ToNumber (VString "abc") = NaN
    /\ map Monthly.profit (monthlyChartData a) = [NaN]
    /\ map Chart.profit (deptChartData a) = [NaN]
    /\ map Monthly.revenue (monthlyChartData a) = [num 10]
    /\ map Chart.revenue (deptChartData a) = [num 10].
Proof.
  destruct proto as [[] [] []];
    (eexists; split; [vm_compute; reflexivity|]; repeat split).
Qed.

(** *** Rows and the state of [Object.prototype] *)

Section Reads.
Variable P : Platform.
Variable K : Keys.

Lemma revOf_indep (proto proto' : Proto) (row : Row) :
  revOf K proto row = revOf K proto' row.
Proof.
  unfold revOf.
  destruct (prop_indep proto proto' row (revKey K))
    as [->|[[-> | ->] [-> | ->]]]; reflexivity.
Qed.

Lemma expOf_indep (proto proto' : Proto) (row : Row) :
  expOf K proto row = expOf K proto' row.
Proof.
  unfold expOf.
  destruct (prop_indep proto proto' row (expKey K))
    as [->|[[-> | ->] [-> | ->]]]; reflexivity.
Qed.

Lemma deptOf_indep (proto proto' : Proto) (row : Row) :
  deptOf P K proto row = deptOf P K proto' row.
Proof.
  unfold deptOf.
  destruct (prop_indep proto proto' row (deptKey K))
    as [->|[[-> | ->] [-> | ->]]]; reflexivity.
Qed.

Lemma monthOf_indep (proto proto' : Proto) (row : Row) :
  monthOf P K proto row = monthOf P K proto' row.
Proof.
  unfold monthOf.
  destruct (prop_indep proto proto' row (dateKey K))
    as [->|[[-> | ->] [-> | ->]]]; reflexivity.
Qed.

End Reads.

(** *** The [forEach] body *)

Lemma forEachMonthly_eq (proto : Proto) (md : Obj Monthly.t)
  (month : string) (sortKey : Z) (rev profit : number) :
  forEachMonthly proto md month sortKey rev profit
  = match get md month with
    | Some _ => (proto, modify md month (addRowMonthly rev profit))
    | None =>
        if String.eqb month "__proto__"
        then (addProfit (addRevenue proto), md)
        else if isBuiltin month then (proto, md)
        else (proto,
              md ++ [(month,
                      addRowMonthly rev profit
                        (Monthly.mk month (num 0) (num 0) sortKey))])
    end.
Proof.
  unfold forEachMonthly. rewrite ensure_addAt.
  destruct (get md month) eqn:E.
  - unfold addAt. rewrite get_modify, String.eqb_refl, E. simpl.
    now rewrite modify_modify.
  - destruct (String.eqb month "__proto__") eqn:EP.
    + unfold addAt. now rewrite E, EP.
    + destruct (isBuiltin month).
      * unfold addAt. now rewrite E, EP.
      * unfold addAt. rewrite (get_snoc _ _ _ _ E), String.eqb_refl.
        now rewrite (modify_new _ _ _ _ E).
Qed.

Lemma forEachDept_eq (proto : Proto) (ds : Obj Dept.t)
  (dept : string) (rev exp profit : number) :
  forEachDept proto ds dept rev exp profit
  = match get ds dept with
    | Some _ => (proto, modify ds dept (addRow rev exp profit))
    | None =>
        if String.eqb dept "__proto__"
        then (addProfit (addExpenses (addRevenue proto)), ds)
        else if isBuiltin dept then (proto, ds)
        else (proto,
              ds ++ [(dept,
                      addRow rev exp profit
                        (Dept.mk dept (num 0) (num 0) (num 0)))])
    end.
Proof.
  unfold forEachDept. rewrite ensure_addAt.
  destruct (get ds dept) eqn:E.
  - rewrite addAt_again, get_modify, String.eqb_refl, E. simpl.
    now rewrite modify_modify.
  - destruct (String.eqb dept "__proto__") eqn:EP.
    + rewrite addAt_again, E, EP. reflexivity.
    + destruct (isBuiltin dept).
      * rewrite addAt_again, E, EP. reflexivity.
      * rewrite addAt_again, (get_snoc _ _ _ _ E), String.eqb_refl.
        now rewrite (modify_new _ _ _ _ E).
Qed.

Lemma forEachMonthly_proto (proto : Proto) (md : Obj Monthly.t)
  (month : string) (sortKey : Z) (rev profit : number) :
  month <> "__proto__" ->
  fst (forEachMonthly proto md month sortKey rev profit) = proto.
Proof.
  intros H. rewrite forEachMonthly_eq. destruct (get md month); [reflexivity|].
  destruct (String.eqb_spec month "__proto__"); [contradiction|].
  now destruct (isBuiltin month).
Qed.

Lemma forEachDept_proto (proto : Proto) (ds : Obj Dept.t)
  (dept : string) (rev exp profit : number) :
  dept <> "__proto__" ->
  fst (forEachDept proto ds dept rev exp profit) = proto.
Proof.
  intros H. rewrite forEachDept_eq. destruct (get ds dept); [reflexivity|].
  destruct (String.eqb_spec dept "__proto__"); [contradiction|].
  now destruct (isBuiltin dept).
Qed.

Section Body.
Variable P : Platform.
Variable K : Keys.
(** The state of [Object.prototype] the rows are read in: their revenue,
    expense, month and category are the same in every state. *)
Variable p0 : Proto.

Implicit Types (x : Proto * Obj Monthly.t * Obj Dept.t) (row : Row).

Lemma body_month x row :
  snd (fst (forEachBody P K x row))
  = file (snd (fst x)) (fst (monthOf P K p0 row)) (newMonth P K p0 row)
      (addRowMonthly (revOf K p0 row) (profitOf K (fst (fst x)) row)).
Proof.
  destruct x as [[proto md] ds]. unfold forEachBody, newMonth. cbn [fst snd].
  rewrite (monthOf_indep P K p0 proto), (revOf_indep K p0 proto).
  destruct (monthOf P K proto row) as [month sortKey]. cbn [fst snd].
  rewrite forEachMonthly_eq. unfold file.
  destruct (get md month); [now destruct (forEachDept _ _ _ _ _ _)|].
  destruct (String.eqb_spec month "__proto__") as [->|_];
    [now destruct (forEachDept _ _ _ _ _ _)|].
  destruct (isBuiltin month); now destruct (forEachDept _ _ _ _ _ _).
Qed.

Lemma body_dept x row :
  snd (forEachBody P K x row)
  = file (snd x) (deptOf P K p0 row) (newDept P K p0 row)
      (addRow (revOf K p0 row) (expOf K p0 row)
         (profitOf K (fst (fst x)) row)).
Proof.
  destruct x as [[proto md] ds]. unfold forEachBody, newDept. cbn [fst snd].
  destruct (monthOf P K proto row) as [month sortKey].
  destruct (forEachMonthly _ _ _ _ _ _) as [p1 md1].
  rewrite forEachDept_eq.
  rewrite (deptOf_indep P K p1 p0), (revOf_indep K proto p0),
          (expOf_indep K proto p0).
  unfold file. destruct (get ds (deptOf P K p0 row)); [reflexivity|].
  destruct (String.eqb_spec (deptOf P K p0 row) "__proto__") as [->|_];
    [reflexivity|].
  now destruct (isBuiltin (deptOf P K p0 row)).
Qed.

(** A row filed neither under the month nor under the category
    [__proto__] leaves [Object.prototype] as it is. *)
Lemma body_proto x row :
  untouched P K p0 row -> fst (fst (forEachBody P K x row)) = fst (fst x).
Proof.
  intros [Hm Hd]. destruct x as [[proto md] ds]. unfold forEachBody.
  cbn [fst snd]. rewrite (monthOf_indep P K p0 proto) in Hm.
  destruct (monthOf P K proto row) as [month sortKey]. cbn [fst] in Hm.
  pose proof (forEachMonthly_proto proto md month sortKey
                (revOf K proto row) (profitOf K proto row) Hm) as E1.
  destruct (forEachMonthly _ _ _ _ _ _) as [p1 md1]. cbn [fst] in E1.
  subst p1. rewrite (deptOf_indep P K p0 proto) in Hd.
  pose proof (forEachDept_proto proto ds (deptOf P K proto row)
                (revOf K proto row) (expOf K proto row)
                (profitOf K proto row) Hd) as E2.
  now destruct (forEachDept _ _ _ _ _ _) as [p2 ds2].
Qed.
End Body.

(** *** Accumulators filled row by row *)

(** A pass over the rows in which every row files an entry under its key:
    the accumulator [acc x] of the state [x] is updated by [file]. *)
Section Accumulate.
Context {X T : Type}.
Variable body : X -> Row -> X.
Variable acc : X -> Obj T.
Variable key : Row -> string.
Variable init : Row -> T.
Variable bump : X -> Row -> T -> T.
Hypothesis acc_body : forall x row,
  acc (body x row) = file (acc x) (key row) (init row) (bump x row).

Lemma acc_keys (data : list Row) (x : X) (k : string) :
  In k (map fst (acc (fold_left body data x)))
  <-> In k (map fst (acc x))
      \/ (isBuiltin k = false /\ exists row, In row data /\ key row = k).
Proof.
  revert x. induction data as [|row data IH]; intros x; simpl.
  - split; [auto|]. intros [H|(_ & row & [] & _)]. exact H.
  - rewrite IH, acc_body, keys_file. split.
    + intros [[H|[E B]]|(B & r & Hr & E)]; eauto 7.
    + intros [H|(B & r & [<-|Hr] & E)]; eauto 7.
Qed.

Lemma acc_NoDup (data : list Row) (x : X) :
  NoDup (map fst (acc x)) -> NoDup (map fst (acc (fold_left body data x))).
Proof.
  revert x. induction data as [|row data IH]; intros x H; simpl; [exact H|].
  apply IH. rewrite acc_body. now apply file_NoDup.
Qed.

Lemma acc_Forall (Q : string * T -> Prop) (data : list Row) (x : X) :
  (forall x row v, Q (key row, v) -> Q (key row, bump x row v)) ->
  (forall x row, isBuiltin (key row) = false ->
                 Q (key row, bump x row (init row))) ->
  Forall Q (acc x) -> Forall Q (acc (fold_left body data x)).
Proof.
  intros Hb Hi. revert x.
  induction data as [|row data IH]; intros x H; simpl; [exact H|].
  apply IH. rewrite acc_body. apply file_Forall; auto.
Qed.

(** The entry under a key was started by the first row with that key,
    and whatever the later rows leave alone is as that row set it. *)
Section First.
Context {Y : Type}.
Variable h : T -> Y.
Hypothesis h_bump : forall x row e, h (bump x row e) = h e.

Lemma acc_first (data : list Row) (x : X) (k : string) (e : T) :
  get (acc x) k = None ->
  get (acc (fold_left body data x)) k = Some e ->
  exists before row after,
    data = before ++ row :: after
    /\ key row = k
    /\ (forall r, In r before -> key r <> k)
    /\ h e = h (init row).
Proof.
  intros Hx. revert e.
  induction data as [|r data IH] using rev_ind; intros e.
  - simpl. congruence.
  - rewrite fold_left_app. simpl. rewrite acc_body, get_file.
    destruct (String.eqb_spec k (key r)) as [->|Hne].
    + destruct (get (acc (fold_left body data x)) (key r)) as [e0|] eqn:G.
      * intros [= <-]. rewrite h_bump.
        destruct (IH e0 eq_refl) as (b & row & af & -> & Hk & Hb & Hh).
        exists b, row, (af ++ [r]). rewrite <- app_assoc. simpl. auto.
      * destruct (isBuiltin (key r)) eqn:B; [discriminate|].
        intros [= <-]. rewrite h_bump.
        exists data, r, []. repeat split.
        intros r' Hr' E. apply get_None in G. apply G.
        apply acc_keys. right. split; [exact B|]. eauto.
    + intros G. destruct (IH e G) as (b & row & af & -> & Hk & Hb & Hh).
      exists b, row, (af ++ [r]). rewrite <- app_assoc. simpl. auto.
Qed.
End First.

(** The sums the entries hold: a field to which every row adds its
    share, as long as the rows keep the state in [R]. *)
Section Sum.
Variable R : X -> Prop.
Variable ok : Row -> Prop.
Hypothesis R_body : forall x row, ok row -> R x -> R (body x row).
Variable f : T -> number.
Variable g : Row -> number.
Hypothesis f_bump : forall x row e,
  R x -> ok row -> f (bump x row e) = add (f e) (g row).
Hypothesis f_init : forall row, f (init row) = num 0.

Lemma acc_sum_step (x : X) (row : Row) (k : string) :
  R x -> ok row -> isBuiltin k = false ->
  sumUnder f (acc (body x row)) k
  = if String.eqb (key row) k then add (sumUnder f (acc x) k) (g row)
    else sumUnder f (acc x) k.
Proof.
  intros HR Hok B. unfold sumUnder. rewrite acc_body, get_file.
  rewrite (String.eqb_sym k).
  destruct (String.eqb_spec (key row) k) as [<-|_]; [|reflexivity].
  destruct (get (acc x) (key row)); [now apply f_bump|].
  rewrite B, f_bump, f_init; auto.
Qed.

Lemma acc_sum (data : list Row) (x : X) (k : string) :
  Forall ok data -> R x -> isBuiltin k = false ->
  sumUnder f (acc (fold_left body data x)) k
  = fold_left add
      (map g (filter (fun row => String.eqb (key row) k) data))
      (sumUnder f (acc x) k).
Proof.
  intros Hok. revert x.
  induction Hok as [|row data Hrow Hdata IH]; intros x HR B; simpl.
  - reflexivity.
  - rewrite IH by auto. rewrite acc_sum_step by auto.
    now destruct (String.eqb (key row) k).
Qed.
End Sum.
End Accumulate.

(** *** The two accumulators of [analytics] *)

Lemma forEach_cons (P : Platform) (K : Keys) (proto : Proto)
  (data : list Row) :
  forEach P K proto data = fold_left (forEachBody P K) data (proto, [], []).
Proof. reflexivity. Qed.

Section Engine.
Variable P : Platform.
Variable K : Keys.
Variable proto : Proto.
Variable data : list Row.

Let State : Type := (Proto * Obj Monthly.t * Obj Dept.t)%type.
Let bumpDept (x : State) (row : Row) : Dept.t -> Dept.t :=
  addRow (revOf K proto row) (expOf K proto row)
    (profitOf K (fst (fst x)) row).
Let bumpMonth (x : State) (row : Row) : Monthly.t -> Monthly.t :=
  addRowMonthly (revOf K proto row) (profitOf K (fst (fst x)) row).

Lemma dept_step (x : State) (row : Row) :
  snd (forEachBody P K x row)
  = file (snd x) (deptOf P K proto row) (newDept P K proto row)
      (bumpDept x row).
Proof. apply body_dept. Qed.

Lemma month_step (x : State) (row : Row) :
  snd (fst (forEachBody P K x row))
  = file (snd (fst x)) (fst (monthOf P K proto row)) (newMonth P K proto row)
      (bumpMonth x row).
Proof. apply body_month. Qed.

(** The departments after the pass: one entry per name, filed under its
    name, no name a property name of [Object.prototype]. *)
Lemma dept_filed : filedByName (snd (forEach P K proto data)).
Proof.
  rewrite forEach_cons. split.
  - apply (acc_NoDup _ _ _ _ _ dept_step). constructor.
  - apply (acc_Forall _ _ _ _ _ dept_step).
    + intros x row v [H B]. now split.
    + intros x row B. now split.
    + constructor.
Qed.

Lemma month_filed : filedByMonth (snd (fst (forEach P K proto data))).
Proof.
  rewrite forEach_cons. split.
  - apply (acc_NoDup _ (fun x : State => snd (fst x)) _ _ _ month_step).
    constructor.
  - apply (acc_Forall _ (fun x : State => snd (fst x)) _ _ _ month_step).
    + intros x row v [H B]. now split.
    + intros x row B. now split.
    + constructor.
Qed.

Lemma dept_keys (k : string) :
  In k (map fst (snd (forEach P K proto data)))
  <-> isBuiltin k = false
      /\ exists row, In row data /\ deptOf P K proto row = k.
Proof.
  pose proof (acc_keys (forEachBody P K) (fun x : State => snd x)
                (deptOf P K proto) (newDept P K proto) bumpDept dept_step
                data (proto, [], []) k) as H.
  cbn beta in H. rewrite forEach_cons, H. simpl. tauto.
Qed.

Lemma month_keys (k : string) :
  In k (map fst (snd (fst (forEach P K proto data))))
  <-> isBuiltin k = false
      /\ exists row, In row data /\ fst (monthOf P K proto row) = k.
Proof.
  pose proof (acc_keys (forEachBody P K) (fun x : State => snd (fst x))
                (fun row => fst (monthOf P K proto row)) (newMonth P K proto)
                bumpMonth month_step data (proto, [], []) k) as H.
  cbn beta in H. rewrite forEach_cons, H. simpl. tauto.
Qed.

(** A field of the department entries to which every row adds its
    share. *)
Lemma dept_sum (R : State -> Prop) (ok : Row -> Prop)
  (f : Dept.t -> number) (g : Row -> number) (k : string) (d : Dept.t) :
  (forall x row, ok row -> R x -> R (forEachBody P K x row)) ->
  (forall x row e, R x -> ok row -> f (bumpDept x row e) = add (f e) (g row)) ->
  (forall row, f (newDept P K proto row) = num 0) ->
  Forall ok data -> R (proto, [], []) ->
  get (snd (forEach P K proto data)) k = Some d ->
  f d = total (map g (rowsOf P K proto data k)).
Proof.
  intros HR Hb Hi Hok H0 Hd.
  assert (B : isBuiltin k = false).
  { apply dept_keys. destruct (in_dec string_dec k
                                 (map fst (snd (forEach P K proto data))))
      as [H|H]; [exact H|]. apply get_None in H. congruence. }
  pose proof (acc_sum (forEachBody P K) (fun x : State => snd x)
                (deptOf P K proto) (newDept P K proto) bumpDept dept_step
                R ok HR f g Hb Hi data (proto, [], []) k Hok H0 B) as S.
  cbn beta in S. rewrite <- forEach_cons in S.
  unfold sumUnder at 1 in S. now rewrite Hd in S.
Qed.

Lemma month_sum (R : State -> Prop) (ok : Row -> Prop)
  (f : Monthly.t -> number) (g : Row -> number) (k : string) (e : Monthly.t) :
  (forall x row, ok row -> R x -> R (forEachBody P K x row)) ->
  (forall x row e, R x -> ok row -> f (bumpMonth x row e) = add (f e) (g row)) ->
  (forall row, f (newMonth P K proto row) = num 0) ->
  Forall ok data -> R (proto, [], []) ->
  get (snd (fst (forEach P K proto data))) k = Some e ->
  f e = total (map g (rowsIn P K proto data k)).
Proof.
  intros HR Hb Hi Hok H0 He.
  assert (B : isBuiltin k = false).
  { apply month_keys.
    destruct (in_dec string_dec k
                (map fst (snd (fst (forEach P K proto data)))))
      as [H|H]; [exact H|]. apply get_None in H. congruence. }
  pose proof (acc_sum (forEachBody P K) (fun x : State => snd (fst x))
                (fun row => fst (monthOf P K proto row)) (newMonth P K proto)
                bumpMonth month_step
                R ok HR f g Hb Hi data (proto, [], []) k Hok H0 B) as S.
  cbn beta in S. rewrite <- forEach_cons in S.
  unfold sumUnder at 1 in S. now rewrite He in S.
Qed.

Lemma Forall_True {A : Type} (l : list A) : Forall (fun _ => True) l.
Proof. induction l; constructor; auto. Qed.

Lemma dept_revenue (k : string) (d : Dept.t) :
  get (snd (forEach P K proto data)) k = Some d ->
  Dept.revenue d = total (map (revOf K proto) (rowsOf P K proto data k)).
Proof.
  apply (dept_sum (fun _ => True) (fun _ => True)); auto using Forall_True.
Qed.

Lemma dept_expenses (k : string) (d : Dept.t) :
  get (snd (forEach P K proto data)) k = Some d ->
  Dept.expenses d = total (map (expOf K proto) (rowsOf P K proto data k)).
Proof.
  apply (dept_sum (fun _ => True) (fun _ => True)); auto using Forall_True.
Qed.

Lemma month_revenue (k : string) (e : Monthly.t) :
  get (snd (fst (forEach P K proto data))) k = Some e ->
  Monthly.revenue e = total (map (revOf K proto) (rowsIn P K proto data k)).
Proof.
  apply (month_sum (fun _ => True) (fun _ => True)); auto using Forall_True.
Qed.

(** The profits, when no row touches [Object.prototype]. *)
Lemma dept_profit (k : string) (d : Dept.t) :
  Forall (untouched P K proto) data ->
  get (snd (forEach P K proto data)) k = Some d ->
  Dept.profit d = total (map (profitOf K proto) (rowsOf P K proto data k)).
Proof.
  intros Hok.
  apply (dept_sum (fun x => fst (fst x) = proto) (untouched P K proto));
    auto.
  - intros x row Hrow Hx. now rewrite (body_proto P K proto).
  - intros x row e Hx _. unfold bumpDept. now rewrite Hx.
Qed.

Lemma month_profit (k : string) (e : Monthly.t) :
  Forall (untouched P K proto) data ->
  get (snd (fst (forEach P K proto data))) k = Some e ->
  Monthly.profit e = total (map (profitOf K proto) (rowsIn P K proto data k)).
Proof.
  intros Hok.
  apply (month_sum (fun x => fst (fst x) = proto) (untouched P K proto));
    auto.
  - intros x row Hrow Hx. now rewrite (body_proto P K proto).
  - intros x row e' Hx _. unfold bumpMonth. now rewrite Hx.
Qed.


(** A month entry carries the label and the sort key of the first row of
    the table with its label. *)
Lemma month_first (k : string) (e : Monthly.t) :
  get (snd (fst (forEach P K proto data))) k = Some e ->
  exists before row after,
    data = before ++ row :: after
    /\ fst (monthOf P K proto row) = k
    /\ (forall r, In r before -> fst (monthOf P K proto r) <> k)
    /\ Monthly.sortKey e = snd (monthOf P K proto row).
Proof.
  intros He. rewrite forEach_cons in He.
  exact (acc_first (forEachBody P K) (fun x : State => snd (fst x))
           (fun row => fst (monthOf P K proto row)) (newMonth P K proto)
           bumpMonth month_step Monthly.sortKey (fun _ _ _ => eq_refl)
           data (proto, [], []) k e eq_refl He).
Qed.
End Engine.

Lemma analytics_eq (P : Platform) (proto : Proto) (sample : Row)
  (data : list Row) :
  analytics P proto (sample :: data) =
  let K := inferKeys sample in
  let x := forEach P K proto (sample :: data) in
  let deptChartData := deptSeries P (snd x) in
  Some {| monthlyChartData := monthlySeries (snd (fst x));
          deptChartData := deptChartData;
          expensesByDept := topExpenses deptChartData;
          topOrders := topProfitable K (fst (fst x)) (sample :: data);
          keys := K |}.
Proof.
  unfold analytics.
  now destruct (forEach P (inferKeys sample) proto (sample :: data))
    as [[after md] ds].
Qed.

(** The parts of a computed [analytics]. *)
Lemma analytics_inv (P : Platform) (proto : Proto) (data : list Row)
  (a : Analytics) :
  analytics P proto data = Some a ->
  data <> []
  /\ keys a = inferKeys (hd [] data)
  /\ monthlyChartData a
     = monthlySeries (snd (fst (forEach P (keys a) proto data)))
  /\ deptChartData a = deptSeries P (snd (forEach P (keys a) proto data))
  /\ expensesByDept a = topExpenses (deptChartData a)
  /\ topOrders a = topProfitable (keys a) (prototypeAfter P proto data) data.
Proof.
  destruct data as [|sample data]; [discriminate|].
  rewrite analytics_eq. cbv zeta. intros [= <-].
  repeat split. discriminate.
Qed.

(** *** Categories *)

(** C9, as amended: for every row, the category is the string coercion of
    [row[categoryKey]] unless that value is falsy -- absent, null, the
    empty string, the number 0 or NaN, or false -- in which case it is
    ["Unassigned"]; the inferred category key is no property name of
    [Object.prototype], and a row without a column of such a key is
    bucketed under ["Unassigned"], its revenue, expense and profit being
    added to that bucket's sums. *)
Theorem category_of_row
  (P : Platform) (K : Keys) (proto : Proto) (row : Row) :
  deptOf P K proto row =
    (if truthy (prop proto row (deptKey K))
     then ToString P (prop proto row (deptKey K)) else "Unassigned")
  /\ (forall sample, isBuiltin (deptKey (inferKeys sample)) = false)
  /\ (isBuiltin (deptKey K) = false -> get row (deptKey K) = None ->
      forall md ds,
        let ds' := snd (forEachBody P K (proto, md, ds) row) in
        deptOf P K proto row = "Unassigned"
        /\ get ds' "Unassigned" <> None
        /\ revenueUnder ds' "Unassigned"
           = add (revenueUnder ds "Unassigned") (revOf K proto row)
        /\ expensesUnder ds' "Unassigned"
           = add (expensesUnder ds "Unassigned") (expOf K proto row)
        /\ profitUnder ds' "Unassigned"
           = add (profitUnder ds "Unassigned") (profitOf K proto row)).
Proof.
  split; [|split].
  - unfold deptOf, or. now destruct (truthy (prop proto row (deptKey K))).
  - intros sample. apply (resolve_plain Category).
  - intros B H md ds ds'.
    assert (D : deptOf P K proto row = "Unassigned").
    { unfold deptOf, prop. rewrite H.
      now destruct (inherited_plain proto _ B) as [-> | ->]. }
    unfold ds', revenueUnder, expensesUnder, profitUnder.
    rewrite (body_dept P K proto), get_file, D.
    cbn [fst snd]. simpl String.eqb. simpl isBuiltin.
    repeat split; try (destruct (get ds "Unassigned"); discriminate);
      destruct (get ds "Unassigned"); reflexivity.
Qed.

Lemma category_of_row_witness :
  let row := [("revenue", VNumber (num 7)); ("cost", VNumber (num 2))] in
  let K := inferKeys row in
  isBuiltin (deptKey K) = false
  /\ get row (deptKey K) = None
  /\ deptOf (host 0) K pristine row = "Unassigned"
  /\ revenueUnder (snd (forEachBody (host 0) K (pristine, [], []) row))
       "Unassigned" = num 7.
Proof.
  intros row K.
  pose proof (proj2 (proj2 (category_of_row (host 0) K pristine row))
                eq_refl eq_refl [] []) as H.
  split; [reflexivity|]. split; [reflexivity|]. split; [exact (proj1 H)|].
  exact (proj1 (proj2 (proj2 H))).
Defined.

(** C9, as stated, fails: a department that is the number 0 is neither
    empty nor absent, and its string coercion is ["0"], yet the row is
    filed under ["Unassigned"]. *)
Lemma category_zero_is_unassigned :
  ~ (forall P K proto row,
       deptOf P K proto row
       = claimedCategory P (prop proto row (deptKey K))).
Proof.
  intros H.
  specialize (H (host 0) (inferKeys departmentZero) pristine departmentZero).
  discriminate H.
Qed.

(** *** The category chart *)

Lemma mapi_name (i : nat) (l : list Dept.t) :
  map Chart.name (mapi withColor i l) = map Dept.name l.
Proof.
  revert i. induction l as [|d l IH]; intros i; simpl; [reflexivity|].
  now rewrite IH.
Qed.

Lemma nth_error_mapi {A B : Type} (f : A -> nat -> B) (j i : nat) (l : list A) :
  nth_error (mapi f j l) i = option_map (fun d => f d (j + i)%nat) (nth_error l i).
Proof.
  revert j i. induction l as [|d l IH]; intros j [|i]; simpl; try reflexivity.
  - now rewrite Nat.add_0_r.
  - rewrite IH. now rewrite Nat.add_succ_r.
Qed.

Lemma In_mapi {A B : Type} (f : A -> nat -> B) (i : nat) (l : list A) (y : B) :
  In y (mapi f i l) -> exists x j, In x l /\ y = f x j.
Proof.
  revert i. induction l as [|x l IH]; intros i; simpl; [tauto|].
  intros [<-|H].
  - exists x, i. auto.
  - destruct (IH _ H) as (x' & j & Hx & ->). exists x', j. auto.
Qed.

Section Names.
Variable P : Platform.

Lemma filedByName_names (ds : Obj Dept.t) :
  filedByName ds -> map Dept.name (map snd ds) = map fst ds.
Proof.
  intros [_ H]. induction H as [|p ds [Hp _] _ IH]; simpl; [reflexivity|].
  now rewrite Hp, IH.
Qed.

Lemma sorted_values_perm (ds : Obj Dept.t) :
  Permutation
    (sort (fun a b => localeCompare P (Dept.name a) (Dept.name b))
          (Object_values ds))
    (map snd ds).
Proof. rewrite sort_perm. apply Object_values_perm. Qed.

Lemma deptSeries_names (ds : Obj Dept.t) :
  map Chart.name (deptSeries P ds)
  = sort (localeCompare P) (map Dept.name (Object_values ds)).
Proof.
  unfold deptSeries. rewrite mapi_name.
  apply (sort_map Dept.name (localeCompare P)).
Qed.

Lemma chart_names_keys (ds : Obj Dept.t) (k : string) :
  filedByName ds ->
  (In k (map Chart.name (deptSeries P ds)) <-> In k (map fst ds)).
Proof.
  intros F. rewrite deptSeries_names, (sort_In (localeCompare P)).
  rewrite <- (filedByName_names ds F).
  split; apply Permutation_in, Permutation_map;
    [|symmetry]; apply Object_values_perm.
Qed.

Lemma deptSeries_NoDup (ds : Obj Dept.t) :
  filedByName ds -> NoDup (map Chart.name (deptSeries P ds)).
Proof.
  intros H. rewrite deptSeries_names.
  apply (Permutation_NoDup (l := map fst ds)); [|exact (proj1 H)].
  rewrite sort_perm, <- (filedByName_names ds H).
  symmetry. apply Permutation_map, Object_values_perm.
Qed.

Lemma deptSeries_fill (ds : Obj Dept.t) (i : nat) (e : Chart.t) :
  nth_error (deptSeries P ds) i = Some e ->
  Chart.fill e = nth (i mod 8) COLORS "".
Proof.
  unfold deptSeries. rewrite nth_error_mapi.
  destruct (nth_error _ i) as [d|]; simpl; [|discriminate].
  now intros [= <-].
Qed.

(** An entry of the chart is an entry of [deptStats], filed under its
    name, with its margin and colour added. *)
Lemma deptSeries_entry (ds : Obj Dept.t) (e : Chart.t) :
  filedByName ds -> In e (deptSeries P ds) ->
  exists d i,
    get ds (Chart.name e) = Some d /\ e = withColor d i.
Proof.
  intros [Hnd Hname] He. unfold deptSeries in He.
  apply In_mapi in He as (d & j & Hd & ->).
  apply (Permutation_in _ (sorted_values_perm ds)) in Hd.
  apply in_map_iff in Hd as ([k d'] & Hk & Hp). simpl in Hk. subst d'.
  rewrite Forall_forall in Hname. pose proof (proj1 (Hname _ Hp)) as Hn.
  simpl in Hn. exists d, j. split; [|reflexivity].
  simpl. rewrite Hn. now apply In_get.
Qed.
End Names.

(** An entry of the category aggregate comes from the entry [deptStats]
    holds under its name. *)
Lemma chart_entry (P : Platform) (proto : Proto) (data : list Row)
  (a : Analytics) (e : Chart.t) :
  analytics P proto data = Some a -> In e (deptChartData a) ->
  exists d i,
    get (snd (forEach P (keys a) proto data)) (Chart.name e) = Some d
    /\ e = withColor d i.
Proof.
  intros H He. apply analytics_inv in H as (_ & _ & _ & Hd & _).
  rewrite Hd in He. apply deptSeries_entry in He; [exact He|].
  apply dept_filed.
Qed.

(** The names of the category aggregate: the categories of the rows that
    are no property names of [Object.prototype]. *)
Lemma chart_names (P : Platform) (proto : Proto) (data : list Row)
  (a : Analytics) (k : string) :
  analytics P proto data = Some a ->
  (In k (map Chart.name (deptChartData a))
   <-> isBuiltin k = false
       /\ exists row, In row data /\ deptOf P (keys a) proto row = k).
Proof.
  intros H. apply analytics_inv in H as (_ & _ & _ & -> & _).
  rewrite chart_names_keys by apply dept_filed. apply dept_keys.
Qed.

(** C5, at the failing input: a category named as a method of
    [Object.prototype] gets no entry in the category aggregate, so the
    revenue of its rows is in no category: of the revenues 5 and 2 of the
    two rows, the aggregate holds 2. *)
Theorem prototype_name_category_is_dropped (P : Platform) (proto : Proto) :
  exists a,
    analytics P proto namedConstructor = Some a
    /\ map (deptOf P (keys a) proto) namedConstructor
       = ["constructor"; "Sales"]
    /\ map (revOf (keys a) proto) namedConstructor = [num 5; num 2]
    /\ total (map (revOf (keys a) proto) namedConstructor) = num 7
    /\ map (fun e => (Chart.name e, Chart.revenue e)) (deptChartData a)
       = [("Sales", num 2)]
    /\ total (map Chart.revenue (deptChartData a)) = num 2.
Proof.
  destruct proto as [[] [] []];
    (eexists; split; [vm_compute; reflexivity|]; repeat split).
Qed.

(** *** Colours *)

Lemma colorOf_In (view : list Chart.t) (e : Chart.t) :
  NoDup (map Chart.name view) -> In e view ->
  colorOf view (Chart.name e) = Some (Chart.fill e).
Proof.
  unfold colorOf. induction view as [|x view IH]; simpl; [tauto|].
  intros Hnd Hin. inversion Hnd as [|? ? Hx Hnd']; subst.
  destruct (String.eqb_spec (Chart.name x) (Chart.name e)) as [E|Hne].
  - destruct Hin as [->|Hin]; [reflexivity|].
    exfalso. apply Hx. rewrite E. now apply in_map.
  - destruct Hin as [->|Hin]; [congruence|]. now apply IH.
Qed.

Lemma NoDup_firstn {A : Type} (n : nat) (l : list A) :
  NoDup l -> NoDup (firstn n l).
Proof.
  intros H. rewrite <- (firstn_skipn n l) in H.
  now apply NoDup_app_remove_r in H.
Qed.

Lemma In_firstn {A : Type} (n : nat) (l : list A) (x : A) :
  In x (firstn n l) -> In x l.
Proof.
  intros H. rewrite <- (firstn_skipn n l). apply in_or_app. now left.
Qed.

(** A view that re-sorts and truncates the chart shows every category in
    the chart's colour. *)
Lemma colorOf_view (chart : list Chart.t) (cmp : Chart.t -> Chart.t -> Z)
  (n : nat) (e : Chart.t) :
  NoDup (map Chart.name chart) ->
  In e (slice0 n (sort cmp chart)) ->
  colorOf (slice0 n (sort cmp chart)) (Chart.name e)
  = colorOf chart (Chart.name e).
Proof.
  intros Hnd Hin. unfold slice0 in *.
  rewrite (colorOf_In chart e Hnd).
  - apply colorOf_In; [|exact Hin].
    rewrite <- firstn_map. apply NoDup_firstn.
    apply (Permutation_NoDup (l := map Chart.name chart)); [|exact Hnd].
    symmetry. apply Permutation_map, sort_perm.
  - apply (sort_In cmp). now apply In_firstn in Hin.
Qed.

(** C6: for every table, the palette has 8 distinct entries; the names of
    the category aggregate are the by-name sort of the categories, each
    once, ascending when the host's collation is a total preorder; the
    entry at index [i] is coloured [COLORS[i mod 8]]; and every
    category shown by the top-5-by-expense view -- or by any other
    re-sorted and truncated view of the aggregate -- has there the colour
    it has in the by-name view. *)
Theorem colors_follow_names (P : Platform) (proto : Proto) (data : list Row)
  (a : Analytics) :
  analytics P proto data = Some a ->
  List.length COLORS = 8%nat /\ NoDup COLORS
  /\ map Chart.name (deptChartData a)
     = sort (localeCompare P)
         (map Dept.name
            (Object_values (snd (forEach P (keys a) proto data))))
  /\ NoDup (map Chart.name (deptChartData a))
  /\ (Collation P ->
      StronglySorted (fun x y => localeCompare P x y <= 0)
        (map Chart.name (deptChartData a)))
  /\ (forall i e, nth_error (deptChartData a) i = Some e ->
        Chart.fill e = nth (i mod 8) COLORS ""
        /\ colorOf (deptChartData a) (Chart.name e) = Some (Chart.fill e))
  /\ (forall e, In e (expensesByDept a) ->
        colorOf (expensesByDept a) (Chart.name e)
        = colorOf (deptChartData a) (Chart.name e))
  /\ (forall cmp n e, In e (slice0 n (sort cmp (deptChartData a))) ->
        colorOf (slice0 n (sort cmp (deptChartData a))) (Chart.name e)
        = colorOf (deptChartData a) (Chart.name e)).
Proof.
  intros H. apply analytics_inv in H as (_ & _ & _ & Hd & He & _).
  rewrite He, Hd.
  set (ds := snd (forEach P (keys a) proto data)).
  assert (F : filedByName ds) by apply dept_filed.
  pose proof (deptSeries_NoDup P ds F) as Hnd.
  split; [reflexivity|].
  split.
  { repeat (constructor; [simpl; intuition discriminate|]). constructor. }
  split; [apply deptSeries_names|].
  split; [exact Hnd|].
  split.
  { intros [Ht Htr]. rewrite deptSeries_names. now apply sort_sorted. }
  split.
  { intros i e Hi. split; [now apply deptSeries_fill in Hi|].
    apply colorOf_In; [exact Hnd|]. now apply nth_error_In in Hi. }
  split.
  { intros e Hin. now apply colorOf_view. }
  intros cmp n e Hin. now apply colorOf_view.
Qed.

Lemma host_Collation (offset : Z) : Collation (host offset).
Proof.
  assert (L : forall a b, compareUnits a b <= 0
                          <-> String_as_OT.compare a b <> Gt).
  { intros a b. unfold compareUnits.
    destruct (String_as_OT.compare a b); split; (lia || congruence). }
  split; simpl.
  - intros a b. rewrite !L.
    destruct (String_as_OT.compare_spec a b) as [E|H|H].
    + left. discriminate.
    + left. discriminate.
    + right. unfold String_as_OT.lt in H. rewrite H. discriminate.
  - intros a b c. rewrite !L. intros Hab Hbc.
    destruct (String_as_OT.compare_spec a b) as [->|Hlt|_];
      [exact Hbc| |congruence].
    destruct (String_as_OT.compare_spec b c) as [<-|Hlt'|_];
      [|pose proof (@StrictOrder_Transitive _ _ String_as_OT.lt_strorder
                      a b c Hlt Hlt') as H|congruence];
      unfold String_as_OT.lt in *; congruence.
Qed.

Lemma colors_follow_names_witness :
  exists a,
    analytics (host 0) pristine exampleRows = Some a
    /\ map (fun e => (Chart.name e, Chart.fill e)) (deptChartData a)
       = [("Marketing", "#6366f1"); ("Sales", "#ec4899")]
    /\ map (fun e => (Chart.name e, Chart.fill e)) (expensesByDept a)
       = [("Sales", "#ec4899"); ("Marketing", "#6366f1")]
    /\ StronglySorted (fun x y => localeCompare (host 0) x y <= 0)
         (map Chart.name (deptChartData a))
    /\ forall e, In e (expensesByDept a) ->
         colorOf (expensesByDept a) (Chart.name e)
         = colorOf (deptChartData a) (Chart.name e).
Proof.
  destruct (analytics (host 0) pristine exampleRows) as [a|] eqn:A;
    [|vm_compute in A; discriminate A].
  pose proof (colors_follow_names (host 0) pristine exampleRows a A) as H.
  exists a. split; [reflexivity|].
  split; [|split; [|split]].
  - vm_compute in A. now injection A as <-.
  - vm_compute in A. now injection A as <-.
  - exact (proj1 (proj2 (proj2 (proj2 (proj2 H)))) (host_Collation 0)).
  - exact (proj1 (proj2 (proj2 (proj2 (proj2 (proj2 (proj2 H))))))).
Defined.

(** *** Months *)

Lemma monthOf_valid (P : Platform) (K : Keys) (proto : Proto) (row : Row)
  (t : Z) :
  Date_new P (prop proto row (dateKey K)) = Some t ->
  monthOf P K proto row
  = (monthYearLabel P t, getFullYear P t * 100 + getMonth P t).
Proof. unfold monthOf. now intros ->. Qed.

Lemma monthOf_invalid (P : Platform) (K : Keys) (proto : Proto) (row : Row) :
  Date_new P (prop proto row (dateKey K)) = None ->
  monthOf P K proto row = ("Unknown", 0).
Proof. unfold monthOf. now intros ->. Qed.

Lemma monthOf_Unknown (P : Platform) (K : Keys) (proto : Proto) (row : Row)
  (key : Z) :
  LabelsDates P -> monthOf P K proto row = ("Unknown", key) -> key = 0.
Proof.
  intros HL. unfold monthOf.
  destruct (Date_new P (prop proto row (dateKey K))) as [t|].
  - intros [= E _]. now apply HL in E.
  - now intros [= <-].
Qed.

Lemma monthlySeries_perm (md : Obj Monthly.t) :
  Permutation (monthlySeries md) (map snd md).
Proof. unfold monthlySeries. rewrite sort_perm. apply Object_values_perm. Qed.

Lemma monthlySeries_In (md : Obj Monthly.t) (e : Monthly.t) :
  In e (monthlySeries md) <-> In e (map snd md).
Proof.
  split; apply Permutation_in; [|symmetry]; apply monthlySeries_perm.
Qed.

Lemma filedByMonth_months (md : Obj Monthly.t) :
  filedByMonth md -> map Monthly.month (map snd md) = map fst md.
Proof.
  intros [_ H]. induction H as [|p l [Hp _] _ IH]; simpl; [reflexivity|].
  now rewrite Hp, IH.
Qed.

Lemma monthlySeries_NoDup (md : Obj Monthly.t) :
  filedByMonth md -> NoDup (map Monthly.month (monthlySeries md)).
Proof.
  intros F.
  apply (Permutation_NoDup (l := map fst md)); [|exact (proj1 F)].
  rewrite <- (filedByMonth_months md F).
  symmetry. apply Permutation_map, monthlySeries_perm.
Qed.

(** An entry of the series is the entry [monthlyData] holds under its
    label. *)
Lemma monthlySeries_entry (md : Obj Monthly.t) (e : Monthly.t) :
  filedByMonth md -> In e (monthlySeries md) ->
  get md (Monthly.month e) = Some e.
Proof.
  intros [Hnd Hall] He. apply monthlySeries_In in He.
  apply in_map_iff in He as ([k e'] & Hk & Hp). simpl in Hk. subst e'.
  rewrite Forall_forall in Hall. destruct (Hall _ Hp) as [Hm _].
  simpl in Hm. rewrite Hm. now apply In_get.
Qed.

(** An entry of the monthly series holds what [monthlyData] holds under
    its label. *)
Lemma series_entry (P : Platform) (proto : Proto) (data : list Row)
  (a : Analytics) (e : Monthly.t) :
  analytics P proto data = Some a -> In e (monthlyChartData a) ->
  get (snd (fst (forEach P (keys a) proto data))) (Monthly.month e) = Some e.
Proof.
  intros H He. apply analytics_inv in H as (_ & _ & Hm & _).
  rewrite Hm in He. apply monthlySeries_entry; [apply month_filed|exact He].
Qed.

(** An entry of the monthly series carries the label and the sort key of
    the first row of the table with its label. *)
Lemma series_first (P : Platform) (proto : Proto) (data : list Row)
  (a : Analytics) (e : Monthly.t) :
  analytics P proto data = Some a -> In e (monthlyChartData a) ->
  exists before row after,
    data = before ++ row :: after
    /\ monthOf P (keys a) proto row = (Monthly.month e, Monthly.sortKey e)
    /\ forall r, In r before ->
         fst (monthOf P (keys a) proto r) <> Monthly.month e.
Proof.
  intros H He. pose proof (series_entry P proto data a e H He) as G.
  destruct (month_first P (keys a) proto data _ e G)
    as (b & row & af & Hd & Hk & Hb & Hs).
  exists b, row, af. split; [exact Hd|]. split; [|exact Hb].
  rewrite <- Hk, Hs. apply surjective_pairing.
Qed.

Lemma StronglySorted_middle {A : Type} (R : A -> A -> Prop)
  (before after : list A) (x : A) :
  StronglySorted R (before ++ x :: after) ->
  Forall (fun y => R y x) before /\ Forall (R x) after.
Proof.
  induction before as [|y before IH]; simpl; intros H.
  - apply StronglySorted_inv in H as [_ H]. now split.
  - apply StronglySorted_inv in H as [Hs Hy].
    destruct (IH Hs) as [Hb Ha]. split; [|exact Ha].
    constructor; [|exact Hb].
    rewrite Forall_forall in Hy. apply Hy, in_elt.
Qed.

(** C7, as amended: for every table, the monthly series is sorted
    ascending by sort key and has one entry per label; an entry carries
    the label and the sort key of the first row of the table filed under
    its label, where a parseable date yields the host's label and
    year * 100 + zero-based month index and an unparseable or absent date
    yields ["Unknown"] and 0; so, on a host that labels no valid date
    ["Unknown"], the entry labelled ["Unknown"] has sort key 0, every
    entry before it has a sort key of at most 0 and every entry after it
    a sort key of at least 0. *)
Theorem monthly_series_sorted (P : Platform) (proto : Proto)
  (data : list Row) (a : Analytics) :
  analytics P proto data = Some a ->
  StronglySorted (fun x y => Monthly.sortKey x <= Monthly.sortKey y)
    (monthlyChartData a)
  /\ NoDup (map Monthly.month (monthlyChartData a))
  /\ (forall e, In e (monthlyChartData a) ->
        exists before row after,
          data = before ++ row :: after
          /\ monthOf P (keys a) proto row
             = (Monthly.month e, Monthly.sortKey e)
          /\ forall r, In r before ->
               fst (monthOf P (keys a) proto r) <> Monthly.month e)
  /\ (forall row t,
        Date_new P (prop proto row (dateKey (keys a))) = Some t ->
        monthOf P (keys a) proto row
        = (monthYearLabel P t, getFullYear P t * 100 + getMonth P t))
  /\ (forall row,
        Date_new P (prop proto row (dateKey (keys a))) = None ->
        monthOf P (keys a) proto row = ("Unknown", 0))
  /\ (LabelsDates P ->
      forall before u after,
        monthlyChartData a = before ++ u :: after ->
        Monthly.month u = "Unknown" ->
        Monthly.sortKey u = 0
        /\ Forall (fun e => Monthly.sortKey e <= 0) before
        /\ Forall (fun e => 0 <= Monthly.sortKey e) after).
Proof.
  intros H.
  pose proof (analytics_inv P proto data a H) as (_ & _ & Hm & _).
  assert (S : StronglySorted
                (fun x y => Monthly.sortKey x <= Monthly.sortKey y)
                (monthlyChartData a)).
  { rewrite Hm. apply (sort_ascending Monthly.sortKey). }
  split; [exact S|].
  split; [rewrite Hm; apply monthlySeries_NoDup, month_filed|].
  split; [intros e He; now apply series_first|].
  split; [intros row t; apply monthOf_valid|].
  split; [intros row; apply monthOf_invalid|].
  intros HL before u after Hsplit Hu.
  assert (Z0 : Monthly.sortKey u = 0).
  { destruct (series_first P proto data a u H) as (_ & row & _ & _ & Hof & _).
    - rewrite Hsplit. apply in_elt.
    - rewrite Hu in Hof. now apply monthOf_Unknown in Hof. }
  rewrite Hsplit in S. apply StronglySorted_middle in S as [Hb Ha].
  rewrite Z0 in Hb, Ha. auto.
Qed.

Lemma space_in_label (a b : string) :
  includes (a ++ " " ++ b)%string " " = true.
Proof.
  induction a as [|c a IH].
  - simpl. now destruct b.
  - change (includes (String c a ++ " " ++ b)%string " ")
      with (if prefix " " (String c (a ++ " " ++ b)%string) then true
            else includes (a ++ " " ++ b)%string " ").
    rewrite IH. now destruct (prefix " " _).
Qed.

Lemma host_LabelsDates (offset : Z) : LabelsDates (host offset).
Proof.
  intros t E.
  assert (H : includes (monthYearLabel (host offset) t) " " = true).
  { apply space_in_label. }
  rewrite E in H. discriminate H.
Qed.

Lemma monthly_series_sorted_witness :
  let data := [ [("date", VString "-000001-06-15"); ("revenue", VString "1")];
                [("date", VString "1999-06-15"); ("revenue", VString "2")];
                [("date", VString "n/a")] ] in
  exists a,
    analytics (host 0) pristine data = Some a
    /\ map (fun e => (Monthly.month e, Monthly.sortKey e, Monthly.revenue e))
         (monthlyChartData a)
       = [("Jun 99", -95, num 3); ("Unknown", 0, num 0)]
    /\ StronglySorted (fun x y => Monthly.sortKey x <= Monthly.sortKey y)
         (monthlyChartData a)
    /\ forall before u after,
         monthlyChartData a = before ++ u :: after ->
         Monthly.month u = "Unknown" ->
         Monthly.sortKey u = 0
         /\ Forall (fun e => Monthly.sortKey e <= 0) before
         /\ Forall (fun e => 0 <= Monthly.sortKey e) after.
Proof.
  intros data.
  destruct (analytics (host 0) pristine data) as [a|] eqn:A;
    [|vm_compute in A; discriminate A].
  pose proof (monthly_series_sorted (host 0) pristine data a A) as H.
  exists a. split; [reflexivity|]. split; [|split].
  - vm_compute in A. now injection A as <-.
  - exact (proj1 H).
  - exact (proj2 (proj2 (proj2 (proj2 (proj2 H)))) (host_LabelsDates 0)).
Defined.

(** C7, as stated, fails: a date before the common era has a negative
    sort key, and its bucket is emitted before the ["Unknown"] bucket. *)
Lemma unknown_bucket_not_first :
  ~ (forall P proto data a, analytics P proto data = Some a -> unknownFirst a).
Proof.
  intros H.
  destruct (analytics (host 0) pristine earlyDate) as [a|] eqn:A;
    [|vm_compute in A; discriminate A].
  specialize (H (host 0) pristine earlyDate a A
                (Monthly.mk "Unknown" (num 0) (num 0) 0)).
  vm_compute in A. injection A as <-.
  assert (E : Some (Monthly.mk "Jun 99" (Fin 0) (Fin 0) (-95))
              = Some (Monthly.mk "Unknown" (Fin 0) (Fin 0) 0)).
  { apply H; [right; left; reflexivity|reflexivity]. }
  discriminate E.
Qed.

(** *** The end-to-end example *)

Lemma local_day_near (P : Platform) (d : Z) :
  Z.abs (LocalTZA P (d * msPerDay)) <= 14 * 3600000 ->
  local_day P (d * msPerDay) = d \/ local_day P (d * msPerDay) = d - 1.
Proof.
  intros HB. unfold local_day.
  set (x := LocalTZA P (d * msPerDay)) in *.
  assert (M : msPerDay = 86400000) by reflexivity.
  rewrite Z.div_add_l by (rewrite M; lia).
  destruct (Z_lt_le_dec x 0) as [Hneg|Hpos].
  - right. replace (x / msPerDay) with (-1); [lia|].
    apply (Z.div_unique_pos x msPerDay (-1) (x + msPerDay)); lia.
  - left. rewrite Z.div_small; lia.
Qed.

(** A day whose eve lies in the same month is in that month in every
    time zone. *)
Lemma monthOf_iso_day (P : Platform) (K : Keys) (proto : Proto) (row : Row)
  (d y m : Z) (label : string) :
  Date_new P (prop proto row (dateKey K)) = Some (d * msPerDay) ->
  Z.abs (LocalTZA P (d * msPerDay)) <= 14 * 3600000 ->
  monthYearLabel P (d * msPerDay) = label ->
  civil_from_days d = (y, m) -> civil_from_days (d - 1) = (y, m) ->
  monthOf P K proto row = (label, y * 100 + m).
Proof.
  intros Hd HB HL E1 E2. rewrite (monthOf_valid P K proto row _ Hd), HL.
  unfold getFullYear, getMonth.
  destruct (local_day_near P d HB) as [-> | ->].
  - now rewrite E1.
  - now rewrite E2.
Qed.

(** Two hosts that agree on the month and the category of every row fill
    the accumulators alike. *)
Lemma forEachBody_ext (P P' : Platform) (K : Keys)
  (x : Proto * Obj Monthly.t * Obj Dept.t) (row : Row) :
  (forall proto, monthOf P K proto row = monthOf P' K proto row) ->
  (forall proto, deptOf P K proto row = deptOf P' K proto row) ->
  forEachBody P K x row = forEachBody P' K x row.
Proof.
  intros Hm Hd. destruct x as [[proto md] ds]. unfold forEachBody.
  rewrite Hm. destruct (monthOf P' K proto row) as [month sortKey].
  destruct (forEachMonthly _ _ _ _ _ _) as [p1 md1]. now rewrite Hd.
Qed.

Lemma forEach_ext (P P' : Platform) (K : Keys) (proto : Proto)
  (data : list Row) :
  Forall (fun row =>
            (forall proto, monthOf P K proto row = monthOf P' K proto row)
            /\ forall proto, deptOf P K proto row = deptOf P' K proto row)
         data ->
  forEach P K proto data = forEach P' K proto data.
Proof.
  unfold forEach. generalize (proto, @nil (string * Monthly.t),
                              @nil (string * Dept.t)) as x.
  induction data as [|row data IH]; intros x H; simpl; [reflexivity|].
  inversion H as [|? ? [Hm Hd] Hdata]; subst.
  rewrite (forEachBody_ext P P' K x row Hm Hd). now apply IH.
Qed.

Lemma sort_two {A : Type} (cmp : A -> A -> Z) (x y : A) :
  cmp x y > 0 -> sort cmp [x; y] = [y; x].
Proof.
  intros H. simpl. destruct (Z.leb_spec (cmp x y) 0); [lia|reflexivity].
Qed.

(** C1, as amended: for the three rows of the example, with
    [Object.prototype] as the runtime provides it and on a host that, at
    the three dates, labels months the English way and keeps local time
    within 14 hours of UTC, and that collates ["Marketing"] before
    ["Sales"], the category aggregate is Marketing (revenue 50, expenses
    60, profit -10, margin -20) then Sales (300, 90, 210, 70), and the
    monthly aggregate is January 2024 (revenue 150, profit 50) then
    February 2024 (200, 150). *)
Theorem example_aggregates (P : Platform) :
  ExampleHost P ->
  exists a,
    analytics P pristine exampleRows = Some a
    /\ deptChartData a
       = [ Chart.mk "Marketing" (num 50) (num 60) (num (-10)) (num (-20))
             "#6366f1";
           Chart.mk "Sales" (num 300) (num 90) (num 210) (num 70) "#ec4899" ]
    /\ monthlyChartData a
       = [ Monthly.mk "Jan 24" (num 150) (num 50) 202400;
           Monthly.mk "Feb 24" (num 200) (num 150) 202401 ].
Proof.
  intros [HI [_ Hgt]].
  inversion HI as [|? ? [B1 L1] HI2]; subst.
  inversion HI2 as [|? ? [B2 L2] HI3]; subst.
  inversion HI3 as [|? ? [B3 L3] _]; subst.
  cbn [fst snd] in *.
  set (K := inferKeys (hd [] exampleRows)).
  assert (E : forEach P K pristine exampleRows
              = forEach (host 0) K pristine exampleRows).
  { apply forEach_ext.
    constructor; [split; intros proto|constructor; [split; intros proto|
      constructor; [split; intros proto|constructor]]].
    - rewrite (monthOf_iso_day P K proto _ 19727 2024 0 "Jan 24");
        [vm_compute; reflexivity|vm_compute; reflexivity|exact B1|exact L1
        |vm_compute; reflexivity..].
    - vm_compute; reflexivity.
    - rewrite (monthOf_iso_day P K proto _ 19763 2024 1 "Feb 24");
        [vm_compute; reflexivity|vm_compute; reflexivity|exact B2|exact L2
        |vm_compute; reflexivity..].
    - vm_compute; reflexivity.
    - rewrite (monthOf_iso_day P K proto _ 19742 2024 0 "Jan 24");
        [vm_compute; reflexivity|vm_compute; reflexivity|exact B3|exact L3
        |vm_compute; reflexivity..].
    - vm_compute; reflexivity. }
  change (analytics P pristine exampleRows)
    with (analytics P pristine (hd [] exampleRows :: tl exampleRows)).
  rewrite analytics_eq. cbv zeta.
  change (hd [] exampleRows :: tl exampleRows) with exampleRows.
  fold K. rewrite E.
  destruct (forEach (host 0) K pristine exampleRows) as [[after md] ds] eqn:X.
  vm_compute in X. injection X as <- <- <-.
  eexists. split; [reflexivity|]. cbn [deptChartData monthlyChartData fst snd].
  split.
  - unfold deptSeries.
    change (Object_values _)
      with [ Dept.mk "Sales" (num 300) (num 90) (num 210);
             Dept.mk "Marketing" (num 50) (num 60) (num (-10)) ].
    rewrite sort_two by exact Hgt. reflexivity.
  - reflexivity.
Qed.

Lemma host_ExampleHost : ExampleHost (host 0).
Proof.
  split; [|split; reflexivity].
  repeat constructor; try (vm_compute; reflexivity);
    vm_compute; discriminate.
Qed.

Lemma example_aggregates_witness :
  exists a,
    analytics (host 0) pristine exampleRows = Some a
    /\ map (fun e => (Chart.name e, Chart.margin e)) (deptChartData a)
       = [("Marketing", num (-20)); ("Sales", num 70)]
    /\ map (fun e => (Monthly.month e, Monthly.profit e)) (monthlyChartData a)
       = [("Jan 24", num 50); ("Feb 24", num 150)].
Proof.
  destruct (example_aggregates (host 0) host_ExampleHost)
    as (a & Ha & Hd & Hm).
  exists a. split; [exact Ha|]. rewrite Hd, Hm. split; reflexivity.
Defined.

(** C1, as stated, fails: the two January rows have profits 60 and -10,
    so the January profit is 50, not 30. *)
Lemma example_january_profit :
  ~ (exists a,
       analytics (host 0) pristine exampleRows = Some a
       /\ map (fun e => (Monthly.revenue e, Monthly.profit e))
             (monthlyChartData a)
          = [(num 150, num 30); (num 200, num 150)]).
Proof.
  intros (a & Ha & Hm). vm_compute in Ha. injection Ha as <-.
  discriminate Hm.
Qed.

End DashboardFacts.

(** ** Further properties *)

Module MoreFacts.
Import JS Dashboard Spec Component Notions JSFacts DashboardFacts.
Local Open Scope list_scope.

(** *** Column inference *)

Lemma includes_nothing (s : string) : includes s "" = true.
Proof. now destruct s. Qed.

(** X1: whatever the candidates, a key returned by [findKey] is a column
    of the row, is not empty, and contains, in lowercase, a non-empty
    candidate. *)
Theorem findKey_returns_column (row : Row) (cands : list string) (k : string) :
  findKey row cands = Some k ->
  In k (Object_keys row) /\ k <> ""
  /\ exists c, In c cands /\ c <> "" /\ includes (toLowerCase k) c = true.
Proof. apply findKey_Some. Qed.

Lemma findKey_returns_column_witness :
  findKey (hd [] exampleRows) (candidates Date) = Some "created_at"
  /\ In "created_at" (Object_keys (hd [] exampleRows)).
Proof.
  assert (E : findKey (hd [] exampleRows) (candidates Date) = Some "created_at")
    by reflexivity.
  split; [exact E|].
  exact (proj1 (findKey_returns_column _ _ _ E)).
Defined.

Lemma findKey_None (row : Row) (cands : list string) :
  findKey row ("" :: cands) = None
  /\ ((forall c, In c cands -> c <> "") ->
      (findKey row cands = None <->
       forall c k, In c cands -> In k (Object_keys row) ->
                   includes (toLowerCase k) c = false)).
Proof.
  split.
  - unfold findKey, Array_find, Array_some.
    destruct (map toLowerCase (Object_keys row)) as [|k0 l].
    + simpl. now rewrite find_none.
    + simpl. now rewrite includes_nothing.
  - intros Hne. split.
    + intros Hnone c k Hc Hk.
      destruct (includes (toLowerCase k) c) eqn:Hinc; [|reflexivity].
      exfalso. unfold findKey, Array_find in Hnone.
      destruct (List.find _ cands) as [c'|] eqn:Hc'.
      * pose proof (List.find_some _ _ Hc') as [Hin' Hsome].
        destruct (String.eqb_spec c' "") as [E|_]; [now apply Hne in Hin'|].
        apply some_column in Hsome as (k' & Hk' & Hinc').
        pose proof (List.find_none _ _ Hnone k' Hk') as F. simpl in F.
        congruence.
      * pose proof (List.find_none _ _ Hc' c Hc) as F. simpl in F.
        rewrite (proj2 (some_column row c)) in F by eauto. discriminate.
    + intros H. unfold findKey, Array_find.
      rewrite find_none; [reflexivity|].
      intros c Hc. apply no_column. intros k Hk. now apply H.
Qed.

(** X2: for candidates that are not empty, [findKey] returns undefined
    exactly when no candidate is contained in a lowercased column name;
    an empty candidate in front makes it return undefined for every
    row. *)
Theorem findKey_undefined (row : Row) (cands : list string) :
  findKey row ("" :: cands) = None
  /\ ((forall c, In c cands -> c <> "") ->
      (findKey row cands = None <->
       forall c k, In c cands -> In k (Object_keys row) ->
                   includes (toLowerCase k) c = false)).
Proof. apply findKey_None. Qed.

Lemma findKey_undefined_witness :
  (forall c, In c (candidates Profit) -> c <> "")
  /\ findKey (hd [] exampleRows) (candidates Profit) = None
  /\ forall c k, In c (candidates Profit) ->
       In k (Object_keys (hd [] exampleRows)) ->
       includes (toLowerCase k) c = false.
Proof.
  split; [apply candidates_nonempty|]. split; [reflexivity|].
  exact (proj1 (proj2 (findKey_undefined (hd [] exampleRows)
                         (candidates Profit))
                      (candidates_nonempty Profit)) eq_refl).
Defined.

(** X3: the key resolved for a role is a column of the sample row that
    contains a candidate of the role, or it is the role's default and the
    sample row has no column of that name; in both cases it is no property
    name of [Object.prototype], so that a row without a column of that
    name answers undefined -- or NaN, once the program has added the name
    to [Object.prototype] --, never a method. *)
Theorem resolved_key_column_or_absent (r : Role) (sample : Row) :
  ((In (resolve r sample) (Object_keys sample)
    /\ exists c, In c (candidates r)
         /\ includes (toLowerCase (resolve r sample)) c = true)
   \/ (resolve r sample = defaultKey r
       /\ ~ In (defaultKey r) (Object_keys sample)))
  /\ isBuiltin (resolve r sample) = false
  /\ forall proto row,
       ~ In (resolve r sample) (Object_keys row) ->
       prop proto row (resolve r sample) = VUndefined
       \/ prop proto row (resolve r sample) = VNumber NaN.
Proof.
  split; [|split].
  - unfold resolve. destruct (findKey sample (candidates r)) as [k|] eqn:E.
    + left. apply findKey_Some in E as (Hin & Hne & c & Hc & _ & Hinc).
      simpl. destruct (String.eqb_spec k ""); [contradiction|]. eauto.
    + right. simpl. split; [reflexivity|]. intros Hin.
      destruct (default_contains_candidate r) as (c & Hc & Hinc).
      pose proof (proj1 (proj2 (findKey_None sample (candidates r))
                           (candidates_nonempty r)) E c _ Hc Hin) as F.
      congruence.
  - apply resolve_plain.
  - intros proto row Hin. unfold prop.
    apply get_None in Hin. unfold Object_keys in Hin. rewrite Hin.
    apply inherited_plain, resolve_plain.
Qed.

Lemma resolved_key_column_or_absent_witness :
  resolve Profit (hd [] exampleRows) = "profit"
  /\ ~ In "profit" (Object_keys (hd [] exampleRows))
  /\ (prop pristine (hd [] exampleRows) "profit" = VUndefined
      \/ prop pristine (hd [] exampleRows) "profit" = VNumber NaN).
Proof.
  assert (N : ~ In (resolve Profit (hd [] exampleRows))
                (Object_keys (hd [] exampleRows))).
  { simpl. intuition discriminate. }
  split; [reflexivity|]. split; [exact N|].
  exact (proj2 (proj2 (resolved_key_column_or_absent Profit
                         (hd [] exampleRows)))
           pristine (hd [] exampleRows) N).
Defined.

(** *** Sums per month and per category *)

(** The labels of the monthly series: the labels of the rows that are no
    property names of [Object.prototype]. *)
Lemma series_names (P : Platform) (proto : Proto) (data : list Row)
  (a : Analytics) (k : string) :
  analytics P proto data = Some a ->
  (In k (map Monthly.month (monthlyChartData a))
   <-> isBuiltin k = false
       /\ exists row, In row data /\ fst (monthOf P (keys a) proto row) = k).
Proof.
  intros H. apply analytics_inv in H as (_ & _ & -> & _).
  rewrite <- month_keys.
  rewrite <- (filedByMonth_months _ (month_filed P (keys a) proto data)).
  split; apply Permutation_in, Permutation_map;
    [|symmetry]; apply monthlySeries_perm.
Qed.

(** X4: for every table, each entry of the monthly series holds as its
    revenue the sum of the coerced revenues of the rows labelled with
    its month, added in table order from 0; and, when no row of the table
    is filed under [__proto__], as its profit the sum of their profits,
    added in the same way. *)
Theorem monthly_sums (P : Platform) (proto : Proto) (data : list Row)
  (a : Analytics) (e : Monthly.t) :
  analytics P proto data = Some a -> In e (monthlyChartData a) ->
  Monthly.revenue e
  = fold_left add
      (map (revOf (keys a) proto)
         (rowsIn P (keys a) proto data (Monthly.month e)))
      (num 0)
  /\ (Forall (untouched P (keys a) proto) data ->
      Monthly.profit e
      = fold_left add
          (map (profitOf (keys a) proto)
             (rowsIn P (keys a) proto data (Monthly.month e)))
          (num 0)).
Proof.
  intros H He. pose proof (series_entry P proto data a e H He) as G.
  split.
  - exact (month_revenue P (keys a) proto data _ e G).
  - intros Hu. exact (month_profit P (keys a) proto data _ e Hu G).
Qed.

Lemma monthly_sums_witness :
  let e := Monthly.mk "Jan 24" (num 150) (num 50) 202400 in
  exists a,
    analytics (host 0) pristine exampleRows = Some a
    /\ In e (monthlyChartData a)
    /\ Forall (untouched (host 0) (keys a) pristine) exampleRows
    /\ Monthly.revenue e
       = fold_left add
           (map (revOf (keys a) pristine)
              (rowsIn (host 0) (keys a) pristine exampleRows "Jan 24"))
           (num 0)
    /\ Monthly.profit e
       = fold_left add
           (map (profitOf (keys a) pristine)
              (rowsIn (host 0) (keys a) pristine exampleRows "Jan 24"))
           (num 0).
Proof.
  intros e.
  destruct (analytics (host 0) pristine exampleRows) as [a|] eqn:A;
    [|vm_compute in A; discriminate A].
  assert (I : In e (monthlyChartData a)).
  { pose proof A as A'. vm_compute in A'. injection A' as <-. now left. }
  assert (U : Forall (untouched (host 0) (keys a) pristine) exampleRows).
  { pose proof A as A'. vm_compute in A'. injection A' as <-.
    repeat constructor; vm_compute; discriminate. }
  destruct (monthly_sums (host 0) pristine exampleRows a e A I) as [Hr Hp].
  exists a. split; [reflexivity|]. split; [exact I|]. split; [exact U|].
  split; [exact Hr|exact (Hp U)].
Defined.

(** X5: for every table, each entry of the category aggregate holds as
    its revenue and as its expenses the sums of the coerced revenues and
    expenses of the rows of its category, added in table order from 0;
    and, when no row of the table is filed under [__proto__], as its
    profit the sum of their profits, added in the same way. *)
Theorem category_sums (P : Platform) (proto : Proto) (data : list Row)
  (a : Analytics) (e : Chart.t) :
  analytics P proto data = Some a -> In e (deptChartData a) ->
  Chart.revenue e
  = fold_left add
      (map (revOf (keys a) proto)
         (rowsOf P (keys a) proto data (Chart.name e)))
      (num 0)
  /\ Chart.expenses e
     = fold_left add
         (map (expOf (keys a) proto)
            (rowsOf P (keys a) proto data (Chart.name e)))
         (num 0)
  /\ (Forall (untouched P (keys a) proto) data ->
      Chart.profit e
      = fold_left add
          (map (profitOf (keys a) proto)
             (rowsOf P (keys a) proto data (Chart.name e)))
          (num 0)).
Proof.
  intros H He. destruct (chart_entry P proto data a e H He)
    as (d & i & G & ->).
  cbn [Chart.name Chart.revenue Chart.expenses Chart.profit withColor] in *.
  split; [|split].
  - exact (dept_revenue P (keys a) proto data _ d G).
  - exact (dept_expenses P (keys a) proto data _ d G).
  - intros Hu. exact (dept_profit P (keys a) proto data _ d Hu G).
Qed.

Lemma category_sums_witness :
  let e := Chart.mk "Sales" (num 300) (num 90) (num 210) (num 70) "#ec4899" in
  exists a,
    analytics (host 0) pristine exampleRows = Some a
    /\ In e (deptChartData a)
    /\ Forall (untouched (host 0) (keys a) pristine) exampleRows
    /\ Chart.revenue e
       = fold_left add
           (map (revOf (keys a) pristine)
              (rowsOf (host 0) (keys a) pristine exampleRows "Sales"))
           (num 0)
    /\ Chart.expenses e
       = fold_left add
           (map (expOf (keys a) pristine)
              (rowsOf (host 0) (keys a) pristine exampleRows "Sales"))
           (num 0)
    /\ Chart.profit e
       = fold_left add
           (map (profitOf (keys a) pristine)
              (rowsOf (host 0) (keys a) pristine exampleRows "Sales"))
           (num 0).
Proof.
  intros e.
  destruct (analytics (host 0) pristine exampleRows) as [a|] eqn:A;
    [|vm_compute in A; discriminate A].
  assert (I : In e (deptChartData a)).
  { pose proof A as A'. vm_compute in A'. injection A' as <-.
    right. now left. }
  assert (U : Forall (untouched (host 0) (keys a) pristine) exampleRows).
  { pose proof A as A'. vm_compute in A'. injection A' as <-.
    repeat constructor; vm_compute; discriminate. }
  destruct (category_sums (host 0) pristine exampleRows a e A I)
    as (Hr & Hx & Hp).
  exists a. split; [reflexivity|]. split; [exact I|]. split; [exact U|].
  split; [exact Hr|]. split; [exact Hx|exact (Hp U)].
Defined.

(** X6: every row of the table whose category is no property name of
    [Object.prototype] has its category in the category aggregate, and
    likewise its month in the monthly series; a category that is such a
    name is not in the aggregate; every category of the aggregate is the
    category of a row; and the aggregate has one entry per distinct
    category that is no such name. *)
Theorem every_row_is_charted (P : Platform) (proto : Proto) (data : list Row)
  (a : Analytics) :
  analytics P proto data = Some a ->
  (forall row, In row data ->
     (isBuiltin (deptOf P (keys a) proto row) = false ->
      In (deptOf P (keys a) proto row) (map Chart.name (deptChartData a)))
     /\ (isBuiltin (deptOf P (keys a) proto row) = true ->
         ~ In (deptOf P (keys a) proto row)
              (map Chart.name (deptChartData a)))
     /\ (isBuiltin (fst (monthOf P (keys a) proto row)) = false ->
         In (fst (monthOf P (keys a) proto row))
            (map Monthly.month (monthlyChartData a))))
  /\ (forall e, In e (deptChartData a) ->
        isBuiltin (Chart.name e) = false
        /\ exists row, In row data
             /\ deptOf P (keys a) proto row = Chart.name e)
  /\ List.length (deptChartData a)
     = List.length
         (nodup string_dec
            (filter (fun k => negb (isBuiltin k))
               (map (deptOf P (keys a) proto) data))).
Proof.
  intros H. split; [|split].
  - intros row Hrow. split; [|split].
    + intros B. apply (chart_names P proto data a _ H). eauto.
    + intros B Hin. apply (chart_names P proto data a _ H) in Hin as [B' _].
      congruence.
    + intros B. apply (series_names P proto data a _ H). eauto.
  - intros e He. apply (chart_names P proto data a _ H). now apply in_map.
  - rewrite <- (length_map Chart.name). apply Permutation_length.
    apply NoDup_Permutation.
    + pose proof (analytics_inv P proto data a H) as (_ & _ & _ & -> & _).
      apply deptSeries_NoDup, dept_filed.
    + apply NoDup_nodup.
    + intros k. rewrite (chart_names P proto data a k H).
      rewrite nodup_In, filter_In, in_map_iff, negb_true_iff.
      split.
      * intros (B & row & Hrow & E). split; [eauto|exact B].
      * intros ((row & E & Hrow) & B). eauto.
Qed.

Lemma every_row_is_charted_witness :
  let sales := [("department", VString "Sales"); ("revenue", VNumber (num 2))] in
  exists a,
    analytics (host 0) pristine namedConstructor = Some a
    /\ map Chart.name (deptChartData a) = ["Sales"]
    /\ In sales namedConstructor
    /\ isBuiltin (deptOf (host 0) (keys a) pristine sales) = false
    /\ In (deptOf (host 0) (keys a) pristine sales)
          (map Chart.name (deptChartData a))
    /\ forall e, In e (deptChartData a) ->
         isBuiltin (Chart.name e) = false
         /\ exists row, In row namedConstructor
              /\ deptOf (host 0) (keys a) pristine row = Chart.name e.
Proof.
  intros sales.
  destruct (analytics (host 0) pristine namedConstructor) as [a|] eqn:A;
    [|vm_compute in A; discriminate A].
  pose proof (every_row_is_charted (host 0) pristine namedConstructor a A)
    as H.
  assert (I : In sales namedConstructor) by (right; now left).
  assert (B : isBuiltin (deptOf (host 0) (keys a) pristine sales) = false).
  { pose proof A as A'. vm_compute in A'. now injection A' as <-. }
  exists a. split; [reflexivity|]. split.
  - vm_compute in A. now injection A as <-.
  - split; [exact I|]. split; [exact B|].
    split; [exact (proj1 (proj1 H sales I) B)|exact (proj1 (proj2 H))].
Defined.
(** *** The order of numbers *)

Lemma leb_total (x y : number) :
  x <> NaN -> y <> NaN -> leb x y = true \/ leb y x = true.
Proof.
  destruct x as [|[|]|a], y as [|[|]|b]; cbn [leb]; try tauto; intros _ _.
  rewrite !Qle_bool_iff.
  destruct (Qlt_le_dec a b) as [H|H]; [left; now apply Qlt_le_weak|now right].
Qed.

Lemma leb_trans (x y z : number) :
  leb x y = true -> leb y z = true -> leb x z = true.
Proof.
  destruct x as [|[|]|a], y as [|[|]|b], z as [|[|]|c]; cbn [leb];
    try reflexivity; try discriminate.
  rewrite !Qle_bool_iff. apply Qle_trans.
Qed.

Lemma Qnum_Qred_nonpos (q : Q) : (Qnum (Qred q) <= 0)%Z <-> (q <= 0)%Q.
Proof.
  rewrite <- (Qred_correct q) at 2. unfold Qle.
  change (Qnum 0) with 0%Z. change (QDen 0) with 1%Z. lia.
Qed.

(** A comparator [b - a] puts [a] first exactly when [b <= a]. *)
Lemma sign_sub_leb (x y : number) :
  x <> NaN -> y <> NaN -> (sign (sub y x) <= 0 <-> leb y x = true).
Proof.
  destruct x as [|[|]|a], y as [|[|]|b];
    cbn [leb sub sign negb Bool.eqb]; try tauto; intros _ _;
    try (split; [reflexivity|lia]);
    try (split; [lia|discriminate]).
  rewrite Qle_bool_iff.
  assert (E : (Z.sgn (Qnum (Qred (b - a))) <= 0 <-> Qnum (Qred (b - a)) <= 0)%Z)
    by (destruct (Qnum (Qred (b - a))); simpl; lia).
  rewrite E, Qnum_Qred_nonpos.
  unfold Qle, Qminus, Qplus, Qopp. simpl. lia.
Qed.

(** A sort by the comparator [b - a] of a field without NaN runs from
    the largest to the smallest. *)
Section Descending.
Context {A : Type} (f : A -> number).

Lemma insert_descending (x : A) (l : list A) :
  f x <> NaN -> Forall (fun a => f a <> NaN) l ->
  descending f l ->
  descending f (insert (fun a b => sign (sub (f b) (f a))) x l).
Proof.
  intros Hx Hl. unfold descending.
  induction 1 as [|y l Hs IH Hy]; simpl.
  - repeat constructor.
  - inversion Hl as [|? ? Hny Hl']; subst.
    destruct (Z.leb_spec (sign (sub (f y) (f x))) 0) as [Hle|Hgt].
    + apply sign_sub_leb in Hle; [|assumption..].
      constructor; [now constructor|].
      constructor; [exact Hle|].
      eapply Forall_impl; [|exact Hy]. intros z Hz. simpl in Hz.
      now apply (leb_trans _ (f y)).
    + constructor; [now apply IH|].
      eapply Permutation_Forall; [symmetry; apply insert_perm|].
      constructor; [|exact Hy].
      destruct (leb_total (f x) (f y) Hx Hny) as [H|H]; [exact H|].
      apply sign_sub_leb in H; [lia|assumption..].
Qed.

Lemma sort_descending (l : list A) :
  Forall (fun a => f a <> NaN) l ->
  descending f (sort (fun a b => sign (sub (f b) (f a))) l).
Proof.
  induction 1 as [|x l Hx Hl IH]; simpl; [constructor|].
  apply insert_descending; [exact Hx| |exact IH].
  eapply Permutation_Forall; [symmetry; apply sort_perm|exact Hl].
Qed.

Lemma descending_app (l1 l2 : list A) :
  descending f (l1 ++ l2) ->
  descending f l1
  /\ forall x y, In x l1 -> In y l2 -> leb (f y) (f x) = true.
Proof.
  unfold descending. induction l1 as [|a l1 IH]; simpl; intros H.
  - split; [constructor|]. intros x y [].
  - apply StronglySorted_inv in H as [Hs Ha]. destruct (IH Hs) as [H1 H2].
    split.
    + constructor; [exact H1|]. apply Forall_app in Ha. tauto.
    + intros x y [<-|Hx] Hy; [|now apply H2].
      rewrite Forall_forall in Ha. apply Ha, in_or_app. now right.
Qed.

(** The first [n] of such a sort: in descending order, and no entry left
    out is larger than an entry kept. *)
Lemma top_of_sort (n : nat) (l : list A) :
  Forall (fun a => f a <> NaN) l ->
  let s := sort (fun a b => sign (sub (f b) (f a))) l in
  descending f (firstn n s)
  /\ forall x y, In x (firstn n s) -> In y l -> ~ In y (firstn n s) ->
                 leb (f y) (f x) = true.
Proof.
  intros Hl s. pose proof (sort_descending l Hl) as D. fold s in D.
  rewrite <- (firstn_skipn n s) in D. apply descending_app in D as [D1 D2].
  split; [exact D1|]. intros x y Hx Hy Hny. apply D2; [exact Hx|].
  apply (sort_In (fun a b => sign (sub (f b) (f a)))) in Hy. fold s in Hy.
  rewrite <- (firstn_skipn n s) in Hy. apply in_app_or in Hy. tauto.
Qed.
End Descending.

(** *** Margins and rankings *)

(** The margin of an entry with a positive revenue. *)
Lemma margin_sign (p r : number) :
  gt0 r = true ->
  let m := mul (div p r) (num 100) in
  (m = NaN <-> p = NaN \/ (r = Infinity false /\ exists s, p = Infinity s))
  /\ (leb (num 0) p = true -> m <> NaN -> leb (num 0) m = true)
  /\ (leb p (num 0) = true -> m <> NaN -> leb m (num 0) = true).
Proof.
  intros Hr m. destruct r as [|[|]|b]; cbn [gt0 negb] in Hr;
    try discriminate Hr.
  - (* an infinite revenue *)
    destruct p as [|s|a]; subst m; cbn [div mul num leb].
    + split; [split; auto|]. split; intros H N; now contradiction N.
    + split; [split; eauto|]. split; intros H N; now contradiction N.
    + split.
      * split; [discriminate|]. intros [H|[_ (s & H)]]; discriminate H.
      * split; intros H _; reflexivity.
  - (* a finite revenue *)
    unfold Qposb in Hr. apply Z.ltb_lt in Hr.
    assert (Hb : (0 < b)%Q) by (unfold Qlt; simpl; lia).
    assert (Hz : Qzerob b = false) by (unfold Qzerob; apply Z.eqb_neq; lia).
    assert (Hn : Qnegb b = false) by (unfold Qnegb; apply Z.ltb_ge; lia).
    destruct p as [|s|a]; subst m; cbn [div mul num leb]; rewrite ?Hz, ?Hn.
    + split; [split; auto|]. split; intros H N; now contradiction N.
    + rewrite xorb_false_r. change (Qzerob (inject_Z 100)) with false.
      change (Qnegb (inject_Z 100)) with false. rewrite xorb_false_r.
      split.
      * split; [discriminate|]. intros [H|[H _]]; discriminate H.
      * destruct s; split; intros H _; (reflexivity || discriminate H).
    + split.
      * split; [discriminate|]. intros [H|[H _]]; discriminate H.
      * assert (Hi : (0 < / b)%Q) by now apply Qinv_lt_0_compat.
        split; intros H _.
        -- apply Qle_bool_iff. rewrite !Qred_correct.
           apply Qle_bool_iff in H. change (inject_Z 0) with 0%Q in *.
           apply Qmult_le_0_compat; [|discriminate].
           apply Qmult_le_0_compat; [exact H|now apply Qlt_le_weak].
        -- apply Qle_bool_iff. rewrite !Qred_correct.
           apply Qle_bool_iff in H. change (inject_Z 0) with 0%Q in *.
           setoid_replace (a / b * inject_Z 100)%Q
             with (a * (/ b * inject_Z 100))%Q by (unfold Qdiv; ring).
           rewrite <- (Qmult_0_l (/ b * inject_Z 100)).
           apply Qmult_le_compat_r; [exact H|].
           apply Qmult_le_0_compat; [now apply Qlt_le_weak|discriminate].
Qed.

(** X7: in the category aggregate, an entry whose revenue is not
    greater than 0 -- zero, negative or NaN -- has margin 0.  An entry
    with a positive revenue has a margin that is NaN only when its profit
    is NaN or its revenue and its profit are both infinite -- the margin
    is never a division by zero --, and otherwise the margin of a profit
    that is not negative is not negative and the margin of a profit that
    is not positive is not positive. *)
Theorem margin_of_category
  (P : Platform) (proto : Proto) (data : list Row) (a : Analytics)
  (e : Chart.t) :
  analytics P proto data = Some a -> In e (deptChartData a) ->
  (gt0 (Chart.revenue e) = false -> Chart.margin e = num 0)
  /\ (gt0 (Chart.revenue e) = true ->
      (Chart.margin e = NaN
       <-> Chart.profit e = NaN
           \/ (Chart.revenue e = Infinity false
               /\ exists s, Chart.profit e = Infinity s))
      /\ (leb (num 0) (Chart.profit e) = true -> Chart.margin e <> NaN ->
          leb (num 0) (Chart.margin e) = true)
      /\ (leb (Chart.profit e) (num 0) = true -> Chart.margin e <> NaN ->
          leb (Chart.margin e) (num 0) = true)).
Proof.
  intros H He. destruct (chart_entry P proto data a e H He)
    as (d & i & _ & ->).
  cbn [Chart.revenue Chart.profit Chart.margin withColor]. split.
  - now intros ->.
  - intros Hr. rewrite Hr. now apply margin_sign.
Qed.

Lemma margin_of_category_witness :
  let e := Chart.mk "Marketing" (num 50) (num 60) (num (-10)) (num (-20))
             "#6366f1" in
  exists a,
    analytics (host 0) pristine exampleRows = Some a
    /\ In e (deptChartData a)
    /\ gt0 (Chart.revenue e) = true
    /\ leb (Chart.profit e) (num 0) = true
    /\ Chart.margin e <> NaN
    /\ leb (Chart.margin e) (num 0) = true.
Proof.
  intros e.
  destruct (analytics (host 0) pristine exampleRows) as [a|] eqn:A;
    [|vm_compute in A; discriminate A].
  assert (I : In e (deptChartData a)).
  { pose proof A as A'. vm_compute in A'. injection A' as <-. now left. }
  assert (N : Chart.margin e <> NaN) by discriminate.
  exists a. split; [reflexivity|]. split; [exact I|].
  split; [reflexivity|]. split; [reflexivity|]. split; [exact N|].
  exact (proj2 (proj2 (proj2 (margin_of_category (host 0) pristine
                                 exampleRows a e A I) eq_refl))
           eq_refl N).
Defined.

(** X8: the top-5-by-expense view has min(5, number of categories)
    entries, all of them entries of the category aggregate; when no
    category's expenses are NaN it runs from the largest expenses to the
    smallest, and no category left out has larger expenses than one
    shown. *)
Theorem top_expenses (P : Platform) (proto : Proto) (data : list Row)
  (a : Analytics) :
  analytics P proto data = Some a ->
  List.length (expensesByDept a)
  = Nat.min 5 (List.length (deptChartData a))
  /\ (forall e, In e (expensesByDept a) -> In e (deptChartData a))
  /\ ((forall e, In e (deptChartData a) -> Chart.expenses e <> NaN) ->
      descending Chart.expenses (expensesByDept a)
      /\ forall e e', In e (expensesByDept a) -> In e' (deptChartData a) ->
           ~ In e' (expensesByDept a) ->
           leb (Chart.expenses e') (Chart.expenses e) = true).
Proof.
  intros H. apply analytics_inv in H as (_ & _ & _ & _ & -> & _).
  unfold topExpenses, slice0. split; [|split].
  - now rewrite length_firstn, (Permutation_length (sort_perm _ _)).
  - intros e He. apply In_firstn in He. now apply sort_In in He.
  - intros Hn. apply (top_of_sort Chart.expenses 5).
    now apply Forall_forall.
Qed.

Lemma top_expenses_witness :
  exists a,
    analytics (host 0) pristine exampleRows = Some a
    /\ map Chart.expenses (expensesByDept a) = [num 90; num 60]
    /\ descending Chart.expenses (expensesByDept a).
Proof.
  destruct (analytics (host 0) pristine exampleRows) as [a|] eqn:A;
    [|vm_compute in A; discriminate A].
  pose proof (top_expenses (host 0) pristine exampleRows a A) as H.
  exists a. split; [reflexivity|].
  vm_compute in A. injection A as <-. split; [reflexivity|].
  apply (proj2 (proj2 H)).
  intros e [<-|[<-|[]]]; discriminate.
Defined.

Lemma prop_withDerivedProfit (K : Keys) (proto proto' : Proto) (row : Row)
  (k : string) :
  k <> "_derivedProfit" ->
  prop proto' (withDerivedProfit K proto row) k = prop proto' row k.
Proof.
  intros Hk. unfold withDerivedProfit, prop. rewrite get_set.
  now destruct (String.eqb_spec k "_derivedProfit").
Qed.

(** X9: the top orders are min(10, number of rows) rows of the table,
    each with its own columns unchanged and its profit, as read once the
    [forEach] is over, under [_derivedProfit]; when no row's profit is NaN
    they run from the largest profit to the smallest, and no row left out
    has a larger profit than one shown. *)
Theorem top_orders (P : Platform) (proto : Proto) (data : list Row)
  (a : Analytics) :
  analytics P proto data = Some a ->
  let after := prototypeAfter P proto data in
  List.length (topOrders a) = Nat.min 10 (List.length data)
  /\ (forall o, In o (topOrders a) ->
        exists row, In row data
          /\ o = withDerivedProfit (keys a) after row
          /\ derivedProfit after o = profitOf (keys a) after row
          /\ forall k, k <> "_derivedProfit" ->
               prop after o k = prop after row k)
  /\ ((forall row, In row data -> profitOf (keys a) after row <> NaN) ->
      descending (derivedProfit after) (topOrders a)
      /\ forall o row, In o (topOrders a) -> In row data ->
           ~ In (withDerivedProfit (keys a) after row) (topOrders a) ->
           leb (profitOf (keys a) after row) (derivedProfit after o) = true).
Proof.
  intros H after. apply analytics_inv in H as (_ & _ & _ & _ & _ & ->).
  fold after. unfold topProfitable, slice0. split; [|split].
  - now rewrite length_firstn, (Permutation_length (sort_perm _ _)),
      length_map.
  - intros o Ho. apply In_firstn in Ho. apply sort_In in Ho.
    apply in_map_iff in Ho as (row & <- & Hrow).
    exists row. repeat split; [exact Hrow| |].
    + apply derivedProfit_withDerivedProfit.
    + intros k. apply prop_withDerivedProfit.
  - intros Hn.
    assert (F : Forall (fun o => derivedProfit after o <> NaN)
                  (map (withDerivedProfit (keys a) after) data)).
    { apply Forall_forall. intros o Ho.
      apply in_map_iff in Ho as (row & <- & Hrow).
      rewrite derivedProfit_withDerivedProfit. now apply Hn. }
    destruct (top_of_sort (derivedProfit after) 10 _ F) as [D1 D2].
    split; [exact D1|]. intros o row Ho Hrow Hout.
    rewrite <- (derivedProfit_withDerivedProfit (keys a) after after row).
    apply D2; [exact Ho| |exact Hout]. now apply in_map.
Qed.

Lemma top_orders_witness :
  exists a,
    analytics (host 0) pristine exampleRows = Some a
    /\ map (derivedProfit pristine) (topOrders a)
       = [num 150; num 60; num (-10)]
    /\ descending (derivedProfit (prototypeAfter (host 0) pristine exampleRows))
         (topOrders a).
Proof.
  destruct (analytics (host 0) pristine exampleRows) as [a|] eqn:A;
    [|vm_compute in A; discriminate A].
  pose proof (top_orders (host 0) pristine exampleRows a A) as H.
  exists a. split; [reflexivity|].
  vm_compute in A. injection A as <-. split; [reflexivity|].
  apply (proj2 (proj2 H)).
  intros row [<-|[<-|[<-|[]]]]; vm_compute; discriminate.
Defined.

(** *** Writes on [Object.prototype] *)

Lemma body_allAdded (P : Platform) (K : Keys) (md : Obj Monthly.t)
  (ds : Obj Dept.t) (row : Row) :
  fst (fst (forEachBody P K (allAdded, md, ds) row)) = allAdded.
Proof.
  unfold forEachBody. destruct (monthOf P K allAdded row) as [month sortKey].
  rewrite forEachMonthly_eq.
  assert (E : forall p1 md1,
            p1 = allAdded ->
            fst (fst (let (p2, ds2) :=
                        forEachDept p1 ds (deptOf P K p1 row)
                          (revOf K allAdded row) (expOf K allAdded row)
                          (profitOf K allAdded row) in
                      (p2, md1 : Obj Monthly.t, ds2))) = allAdded).
  { intros p1 md1 ->. rewrite forEachDept_eq.
    destruct (get ds _); [reflexivity|].
    destruct (String.eqb _ "__proto__"); [reflexivity|].
    now destruct (isBuiltin _). }
  destruct (get md month); [now apply E|].
  destruct (String.eqb month "__proto__"); [now apply E|].
  destruct (isBuiltin month); now apply E.
Qed.

Lemma fold_allAdded (P : Platform) (K : Keys) (data : list Row)
  (x : Proto * Obj Monthly.t * Obj Dept.t) :
  fst (fst x) = allAdded ->
  fst (fst (fold_left (forEachBody P K) data x)) = allAdded.
Proof.
  revert x. induction data as [|row data IH]; intros x H; simpl; [exact H|].
  apply IH. destruct x as [[p md] ds]. simpl in H. subst p.
  apply body_allAdded.
Qed.

(** A row of the category [__proto__] leaves the three properties on
    [Object.prototype]. *)
Lemma body_proto_category (P : Platform) (K : Keys) (p0 : Proto)
  (x : Proto * Obj Monthly.t * Obj Dept.t) (row : Row) :
  get (snd x) "__proto__" = None ->
  deptOf P K p0 row = "__proto__" ->
  fst (fst (forEachBody P K x row)) = allAdded.
Proof.
  intros G D. destruct x as [[proto md] ds]. cbn [snd] in G.
  unfold forEachBody. destruct (monthOf P K proto row) as [month sortKey].
  destruct (forEachMonthly _ _ _ _ _ _) as [p1 md1].
  rewrite (deptOf_indep P K p1 p0), D, forEachDept_eq, G. reflexivity.
Qed.

Lemma proto_category_after (P : Platform) (K : Keys) (proto : Proto)
  (data : list Row) (row : Row) :
  In row data -> deptOf P K proto row = "__proto__" ->
  fst (fst (forEach P K proto data)) = allAdded.
Proof.
  intros Hin D. apply in_split in Hin as (before & after & ->).
  rewrite forEach_cons, fold_left_app. simpl. apply fold_allAdded.
  apply (body_proto_category P K proto); [|exact D].
  rewrite <- forEach_cons. apply get_None.
  intros Hin. apply dept_keys in Hin as [B _]. discriminate B.
Qed.

(** X10: when a row of the table has the category [__proto__], the
    [forEach] leaves the properties [revenue], [expenses] and [profit],
    each NaN, on [Object.prototype]; from then on a row without a column
    [profit], when the profit key is ["profit"], has the profit NaN
    instead of its revenue minus its expense, and so has every such row
    among the top orders. *)
Theorem proto_category_poisons_profit
  (P : Platform) (proto : Proto) (data : list Row) (a : Analytics) :
  analytics P proto data = Some a ->
  (exists row, In row data /\ deptOf P (keys a) proto row = "__proto__") ->
  prototypeAfter P proto data = allAdded
  /\ inherited allAdded "profit" = VNumber NaN
  /\ (profitKey (keys a) = "profit" ->
      (forall row, get row "profit" = None ->
                   profitOf (keys a) allAdded row = NaN)
      /\ forall o, In o (topOrders a) -> get o "profit" = None ->
                   derivedProfit allAdded o = NaN).
Proof.
  intros H (row & Hrow & D).
  pose proof (analytics_inv P proto data a H) as (Hne & HK & _ & _ & _ & HT).
  assert (A : prototypeAfter P proto data = allAdded).
  { unfold prototypeAfter. destruct data as [|sample rows]; [contradiction|].
    simpl in HK. rewrite <- HK.
    now apply (proto_category_after P (keys a) proto _ row). }
  split; [exact A|]. split; [reflexivity|]. intros HP.
  assert (N : forall r, get r "profit" = None ->
                        profitOf (keys a) allAdded r = NaN).
  { intros r G. unfold profitOf, prop. now rewrite HP, G. }
  split; [exact N|]. intros o Ho G. rewrite HT, A in Ho.
  unfold topProfitable, slice0 in Ho. apply In_firstn in Ho.
  apply sort_In in Ho. apply in_map_iff in Ho as (r & <- & _).
  rewrite derivedProfit_withDerivedProfit. apply N.
  unfold withDerivedProfit in G. rewrite get_set in G. exact G.
Qed.

Lemma proto_category_poisons_profit_witness :
  exists a,
    analytics (host 0) pristine namedProto = Some a
    /\ (exists row, In row namedProto
          /\ deptOf (host 0) (keys a) pristine row = "__proto__")
    /\ prototypeAfter (host 0) pristine namedProto = allAdded
    /\ profitKey (keys a) = "profit"
    /\ (forall row, get row "profit" = None ->
                    profitOf (keys a) allAdded row = NaN)
    /\ map (fun e => (Chart.name e, Chart.profit e)) (deptChartData a)
       = [("Sales", NaN)]
    /\ map (derivedProfit allAdded) (topOrders a) = [NaN; NaN]
    /\ map (profitOf (keys a) pristine) namedProto = [num 1; num 10].
Proof.
  destruct (analytics (host 0) pristine namedProto) as [a|] eqn:A;
    [|vm_compute in A; discriminate A].
  assert (D : exists row, In row namedProto
                /\ deptOf (host 0) (keys a) pristine row = "__proto__").
  { eexists. split; [left; reflexivity|].
    pose proof A as A'. vm_compute in A'. now injection A' as <-. }
  assert (K : profitKey (keys a) = "profit").
  { pose proof A as A'. vm_compute in A'. now injection A' as <-. }
  pose proof (proto_category_poisons_profit (host 0) pristine namedProto a
                A D) as (HA & _ & HP).
  exists a. split; [reflexivity|]. split; [exact D|]. split; [exact HA|].
  split; [exact K|]. split; [exact (proj1 (HP K))|].
  vm_compute in A. injection A as <-.
  split; [reflexivity|]. split; reflexivity.
Defined.

(** *** The live buffer *)

Lemma sliceLast_length {A : Type} (n : nat) (l : list A) :
  List.length (sliceLast n l) = Nat.min n (List.length l).
Proof. unfold sliceLast. rewrite length_skipn. lia. Qed.

Lemma sliceLast_suffix {A : Type} (n : nat) (l : list A) :
  l = firstn (List.length l - n) l ++ sliceLast n l.
Proof. unfold sliceLast. now rewrite firstn_skipn. Qed.

Lemma sliceLast_snoc {A : Type} (n : nat) (l : list A) (x : A) :
  sliceLast (S n) (l ++ [x]) = sliceLast n l ++ [x].
Proof.
  unfold sliceLast. rewrite length_app, skipn_app. simpl List.length.
  replace (List.length l + 1 - S n)%nat with (List.length l - n)%nat by lia.
  replace (List.length l - n - List.length l)%nat with 0%nat by lia.
  reflexivity.
Qed.

Lemma sliceLast_all {A : Type} (n : nat) (l : list A) :
  (List.length l <= n)%nat -> sliceLast n l = l.
Proof.
  intros H. unfold sliceLast.
  now replace (List.length l - n)%nat with 0%nat by lia.
Qed.

(** Rows before the last [n] do not count. *)
Lemma sliceLast_app {A : Type} (n : nat) (older l : list A) :
  (n <= List.length l)%nat -> sliceLast n (older ++ l) = sliceLast n l.
Proof.
  intros H. unfold sliceLast. rewrite length_app, skipn_app.
  replace (List.length older + List.length l - n)%nat
    with (List.length older + (List.length l - n))%nat by lia.
  rewrite skipn_all2 by lia. simpl.
  now replace (List.length older + (List.length l - n) - List.length older)%nat
    with (List.length l - n)%nat by lia.
Qed.




(** *** Fetched rows *)

Lemma sort_constant {A : Type} (l : list A) : sort (fun _ _ => 0) l = l.
Proof. induction l as [|x l IH]; simpl; [reflexivity|]. now rewrite IH; destruct l. Qed.

(** A sort whose comparator agrees with an integer key on the elements
    of the list yields ascending keys. *)
Section SortOn.
Context {A : Type} (cmp : A -> A -> Z) (key : A -> Z) (valid : A -> Prop).
Hypothesis cmp_key :
  forall a b, valid a -> valid b -> (cmp a b <= 0 <-> key a <= key b).

Lemma insert_on (x : A) (l : list A) :
  valid x -> Forall valid l ->
  StronglySorted (fun a b => key a <= key b) l ->
  StronglySorted (fun a b => key a <= key b) (insert cmp x l).
Proof.
  intros Hx Hl. induction 1 as [|y l Hs IH Hy]; simpl.
  - repeat constructor.
  - inversion Hl as [|? ? Hvy Hl']; subst.
    destruct (Z.leb_spec (cmp x y) 0) as [Hle|Hgt].
    + apply cmp_key in Hle; [|assumption..].
      constructor; [now constructor|].
      constructor; [exact Hle|].
      eapply Forall_impl; [|exact Hy]. simpl. intros; lia.
    + constructor; [now apply IH|].
      eapply Permutation_Forall; [symmetry; apply insert_perm|].
      constructor; [|exact Hy].
      destruct (Z.le_gt_cases (key y) (key x)) as [H|H]; [exact H|].
      assert (key x <= key y) as H' by lia.
      apply cmp_key in H'; [lia|assumption..].
Qed.

Lemma sort_on (l : list A) :
  Forall valid l ->
  StronglySorted (fun a b => key a <= key b) (sort cmp l).
Proof.
  induction 1 as [|x l Hx Hl IH]; simpl; [constructor|].
  apply insert_on; [exact Hx| |exact IH].
  eapply Permutation_Forall; [symmetry; apply sort_perm|exact Hl].
Qed.
End SortOn.

Lemma byDate_valid (P : Platform) (proto : Proto) (k : string) (a b : Row) :
  k <> "" ->
  Date_new P (prop proto a k) <> None -> Date_new P (prop proto b k) <> None ->
  (byDate P proto (Some k) a b <= 0 <-> timeOf P proto k a <= timeOf P proto k b).
Proof.
  intros Hk Ha Hb. unfold byDate, getTime, timeOf.
  destruct (String.eqb_spec k ""); [contradiction|].
  destruct (Date_new P (prop proto a k)) as [ta|]; [|contradiction].
  destruct (Date_new P (prop proto b k)) as [tb|]; [|contradiction].
  cbn [sub sign num].
  assert (E : (Z.sgn (Qnum (Qred (inject_Z ta - inject_Z tb))) <= 0
               <-> Qnum (Qred (inject_Z ta - inject_Z tb)) <= 0)%Z)
    by (destruct (Qnum (Qred (inject_Z ta - inject_Z tb))); simpl; lia).
  rewrite E, Qnum_Qred_nonpos.
  unfold Qle, Qminus, Qplus, Qopp, inject_Z. simpl. lia.
Qed.

(** X12: the rows [fetchData] stores are the fetched rows, each once, and
    none when the query returns null; without a date column in the first
    row their order is the fetched order; and when every row has a valid
    date under the date column of the first row they are in ascending
    order of time. *)
Theorem fetched_rows_sorted (P : Platform) (proto : Proto) (l : list Row) :
  sortedRows P proto None = []
  /\ Permutation (sortedRows P proto (Some l)) l
  /\ (dateK (Some l) = None -> sortedRows P proto (Some l) = l)
  /\ (forall k, dateK (Some l) = Some k ->
        (forall row, In row l -> Date_new P (prop proto row k) <> None) ->
        StronglySorted (fun a b => timeOf P proto k a <= timeOf P proto k b)
          (sortedRows P proto (Some l))).
Proof.
  split; [reflexivity|]. split; [apply sort_perm|]. split.
  - intros E. unfold sortedRows. rewrite E. apply sort_constant.
  - intros k E Hv. unfold sortedRows. rewrite E.
    assert (Hk : k <> "").
    { destruct l as [|first l']; [discriminate|]. simpl in E.
      now apply findKey_Some in E. }
    apply (sort_on _ (timeOf P proto k)
             (fun row => Date_new P (prop proto row k) <> None)).
    + intros a b. now apply byDate_valid.
    + now apply Forall_forall.
Qed.

Lemma fetched_rows_sorted_witness :
  dateK (Some (rev exampleRows)) = Some "created_at"
  /\ map (fun row => prop pristine row "created_at")
       (sortedRows (host 0) pristine (Some (rev exampleRows)))
     = [VString "2024-01-05"; VString "2024-01-20"; VString "2024-02-10"]
  /\ StronglySorted
       (fun a b => timeOf (host 0) pristine "created_at" a
                   <= timeOf (host 0) pristine "created_at" b)
       (sortedRows (host 0) pristine (Some (rev exampleRows))).
Proof.
  split; [reflexivity|]. split; [vm_compute; reflexivity|].
  apply (proj2 (proj2 (proj2 (fetched_rows_sorted (host 0) pristine
                                (rev exampleRows))))
           "created_at" eq_refl).
  intros row [<-|[<-|[<-|[]]]]; vm_compute; discriminate.
Defined.

(** X13: after an INSERT event the buffer ends with the new row and holds
    min(1000, rows before + 1) rows, the last ones in their order: below
    1000 rows nothing is dropped, and at 1000 rows exactly the oldest
    is. *)
Theorem insert_keeps_last_thousand (row : Row) (st : State) :
  data (onInsert row st) = sliceLast 999 (data st) ++ [row]
  /\ List.length (data (onInsert row st))
     = Nat.min 1000 (List.length (data st) + 1)
  /\ (exists dropped, data st ++ [row] = dropped ++ data (onInsert row st))
  /\ ((List.length (data st) < 1000)%nat ->
      data (onInsert row st) = data st ++ [row])
  /\ (List.length (data st) = 1000%nat ->
      data (onInsert row st) = tl (data st) ++ [row]).
Proof.
  assert (E : data (onInsert row st) = sliceLast 999 (data st) ++ [row]).
  { apply (sliceLast_snoc 999). }
  split; [exact E|]. split; [|split; [|split]].
  - simpl. rewrite sliceLast_length, length_app. simpl. lia.
  - eexists. apply sliceLast_suffix.
  - intros H. rewrite E, sliceLast_all; [reflexivity|lia].
  - intros H. rewrite E. unfold sliceLast. rewrite H.
    now destruct (data st).
Qed.

Lemma insert_keeps_last_thousand_witness :
  let full :=
    {| data := repeat [] 1000; loading := false; error := None;
       tableExists := true; realtimeStatus := connected; insights := None;
       analyzing := false; newTableInput := "" |} in
  (List.length (data initial) < 1000)%nat
  /\ data (onInsert (hd [] exampleRows) initial) = [hd [] exampleRows]
  /\ List.length (data full) = 1000%nat
  /\ data (onInsert (hd [] exampleRows) full)
     = tl (data full) ++ [hd [] exampleRows].
Proof.
  intros full.
  assert (H : (List.length (data initial) < 1000)%nat) by (simpl; lia).
  assert (F : List.length (data full) = 1000%nat) by apply repeat_length.
  split; [exact H|]. split.
  - exact (proj1 (proj2 (proj2 (proj2
             (insert_keeps_last_thousand (hd [] exampleRows) initial)))) H).
  - split; [exact F|].
    exact (proj2 (proj2 (proj2 (proj2
             (insert_keeps_last_thousand (hd [] exampleRows) full)))) F).
Defined.

(** *** Fetching and rendering *)

Lemma messageOf_nonempty (m : option string) : messageOf m <> "".
Proof.
  destruct m as [m|]; simpl; [|discriminate].
  destruct (String.eqb_spec m ""); [discriminate|assumption].
Qed.

Lemma screen_of_rows (P : Platform) (proto : Proto) (st : State) :
  loading st = false -> hasError st = false ->
  screen P proto st
  = match analytics P proto (data st) with
    | Some a => Charts a
    | None => NoData
    end.
Proof.
  intros HL HE. unfold screen. rewrite HL, HE.
  destruct (data st) as [|sample rows]; [reflexivity|].
  now rewrite analytics_eq.
Qed.

(** X14: [fetchData] always ends with the spinner off.  When the table
    exists and the select returns without error, the state holds the
    sorted rows, the live subscription is set up and the charts are
    rendered, or the no-data notice when there are no rows.  In every
    other case the rows held before are kept, the connection-issue panel
    is rendered with a message that is never empty, and no live
    subscription is set up. *)
Theorem fetch_then_render (P : Platform) (proto : Proto) (tableName : string)
  (head : HeadQuery) (select : SelectQuery) (st : State) :
  let st' := fetchData P proto tableName head select st in
  loading st' = false
  /\ (forall rows,
        head = HeadReturned None -> select = SelectReturned rows None ->
        data st' = sortedRows P proto rows
        /\ error st' = None
        /\ subscribes st' = true
        /\ screen P proto st'
           = match analytics P proto (sortedRows P proto rows) with
             | Some a => Charts a
             | None => NoData
             end
        /\ (screen P proto st' = NoData <-> sortedRows P proto rows = []))
  /\ ((head <> HeadReturned None
       \/ forall rows, select <> SelectReturned rows None) ->
      data st' = data st
      /\ subscribes st' = false
      /\ exists message,
           message <> "" /\ error st' = Some message
           /\ screen P proto st' = ConnectionIssue message).
Proof.
  intros st'. split; [|split].
  - unfold st', fetchData.
    destruct (checkTableExists head); [|reflexivity].
    destruct select as [m|rows [m|]]; reflexivity.
  - intros rows -> ->. unfold st'. cbn [fetchData checkTableExists].
    repeat split.
    + rewrite screen_of_rows by reflexivity. reflexivity.
    + rewrite screen_of_rows by reflexivity. cbn [data].
      destruct (sortedRows P proto rows) as [|sample l]; [reflexivity|].
      rewrite analytics_eq. discriminate.
    + intros E. rewrite screen_of_rows by reflexivity. cbn [data].
      now rewrite E.
  - intros Hfail.
    assert (F : exists found message,
               st' = failed found message st).
    { unfold st', fetchData. destruct head as [|[e|]]; simpl; eauto.
      destruct select as [m|rows [m|]]; eauto.
      destruct Hfail as [H|H]; [contradiction|].
      now specialize (H rows). }
    destruct F as (found & message & ->).
    split; [reflexivity|].
    assert (E : hasError (failed found message st) = true).
    { unfold hasError. simpl.
      destruct (String.eqb_spec (messageOf message) ""); [|reflexivity].
      now apply messageOf_nonempty in e. }
    split.
    + unfold subscribes. rewrite E. simpl. now rewrite orb_true_r.
    + exists (messageOf message). split; [apply messageOf_nonempty|].
      split; [reflexivity|]. unfold screen. now rewrite E.
Qed.

Lemma fetch_then_render_witness :
  let ok := fetchData (host 0) pristine "orders" (HeadReturned None)
              (SelectReturned (Some exampleRows) None) initial in
  let ko := fetchData (host 0) pristine "orders" (HeadReturned None)
              (SelectThrew (Some "")) ok in
  subscribes ok = true
  /\ data ko = data ok
  /\ screen (host 0) pristine ko = ConnectionIssue "Failed to fetch data".
Proof.
  intros ok ko.
  pose proof (fetch_then_render (host 0) pristine "orders" (HeadReturned None)
                (SelectReturned (Some exampleRows) None) initial) as H.
  pose proof (fetch_then_render (host 0) pristine "orders" (HeadReturned None)
                (SelectThrew (Some "")) ok) as H'.
  split.
  - exact (proj1 (proj2 (proj2 (proj1 (proj2 H) _ eq_refl eq_refl)))).
  - split.
    + apply (proj2 (proj2 H')). right. intros rows. discriminate.
    + reflexivity.
Defined.

(** *** Insights *)

(** X15: [generateInsights] answers null, without calling the model, when
    no client was created or the table is empty; otherwise it sends the
    last 30 rows at most, so that rows before the last 30 never change
    its answer. *)
Theorem insights_from_last_thirty
  (S : Service) (tableName : string) (older data : list Row) :
  generateInsights S tableName [] = None
  /\ (ai S = false -> generateInsights S tableName data = None)
  /\ (List.length (sliceLast 30 data) <= 30)%nat
  /\ (exists before, data = before ++ sliceLast 30 data)
  /\ ((30 <= List.length data)%nat ->
      generateInsights S tableName (older ++ data)
      = generateInsights S tableName data).
Proof.
  split; [|split; [|split; [|split]]].
  - unfold generateInsights. simpl. now rewrite orb_true_r.
  - intros H. unfold generateInsights. now rewrite H.
  - rewrite sliceLast_length. lia.
  - eexists. apply sliceLast_suffix.
  - intros H. unfold generateInsights.
    rewrite (sliceLast_app 30 older data H).
    assert (E : Nat.eqb (List.length (older ++ data)) 0 = false).
    { apply Nat.eqb_neq. rewrite length_app. lia. }
    assert (E' : Nat.eqb (List.length data) 0 = false).
    { apply Nat.eqb_neq. lia. }
    now rewrite E, E'.
Qed.

Lemma insights_from_last_thirty_witness :
  let echo :=
    {| ai := true;
       generateContent := fun contents => Replied (Some contents);
       JSON_stringify := fun rows => string_of_Z (Z.of_nat (List.length rows));
       JSON_parse := fun text =>
         Some (Some {| summary := text; trends := []; anomalies := [] |}) |} in
  (30 <= List.length (repeat (hd [] exampleRows) 30))%nat
  /\ generateInsights echo "orders"
       (exampleRows ++ repeat (hd [] exampleRows) 30)
     = generateInsights echo "orders" (repeat (hd [] exampleRows) 30).
Proof.
  intros echo.
  assert (H : (30 <= List.length (repeat (hd [] exampleRows) 30))%nat)
    by (rewrite repeat_length; lia).
  split; [exact H|].
  exact (proj2 (proj2 (proj2 (proj2
           (insights_from_last_thirty echo "orders" exampleRows
              (repeat (hd [] exampleRows) 30))))) H).
Defined.

(** X16: for every state of the insights and of the loading flag, the
    panel renders exactly one block under its header: the notice when
    there are no insights and nothing is loading, the skeleton when there
    are no insights and the analysis is running, the content when there
    are insights, with a list section only for a list that is not
    empty. *)
Theorem panel_renders_one_block
  (insights : option InsightData) (loading : bool) :
  exists block,
    panel insights loading = [block]
    /\ (block = NoInsights <-> insights = None /\ loading = false)
    /\ (block = Skeleton <-> insights = None /\ loading = true)
    /\ (forall i, insights = Some i ->
          block = Content (summary i)
                    (if Nat.eqb (List.length (trends i)) 0 then None
                     else Some (trends i))
                    (if Nat.eqb (List.length (anomalies i)) 0 then None
                     else Some (anomalies i))).
Proof.
  assert (L : forall l : list string,
            listSection l
            = if Nat.eqb (List.length l) 0 then None else Some l)
    by (now intros [|x l]).
  destruct insights as [i|]; [|destruct loading].
  - exists (Content (summary i) (listSection (trends i))
              (listSection (anomalies i))).
    split; [now destruct loading|].
    split; [split; [discriminate|intros [H _]; discriminate H]|].
    split; [split; [discriminate|intros [H _]; discriminate H]|].
    intros i' [= <-]. now rewrite !L.
  - exists Skeleton. split; [reflexivity|].
    split; [split; [discriminate|intros [_ H]; discriminate H]|].
    split; [split; auto|]. intros i' H. discriminate H.
  - exists NoInsights. split; [reflexivity|].
    split; [split; auto|].
    split; [split; [discriminate|intros [_ H]; discriminate H]|].
    intros i' H. discriminate H.
Qed.

(** X17: an analysis of a non-empty table ends with the analyzing flag
    off; when the model throws, or answers a text that is not JSON, the
    panel shows the apology alone, without trends or anomalies; when no
    client was created it shows the no-insights notice. *)
Theorem analysis_outcome_in_panel
  (S : Service) (tableName : string) (st : State) :
  data st <> [] ->
  let st' := triggerAnalysis S tableName st in
  analyzing st' = false
  /\ data st' = data st
  /\ (ai S = true ->
      (forall contents,
         generateContent S contents = Threw
         \/ exists text, generateContent S contents = Replied (Some text)
              /\ text <> "" /\ JSON_parse S text = None) ->
      panel (insights st') (analyzing st')
      = [Content "Could not generate financial insights at this time."
           None None])
  /\ (ai S = false ->
      panel (insights st') (analyzing st') = [NoInsights]).
Proof.
  intros Hd st'. unfold st', triggerAnalysis.
  destruct (data st) as [|row rows] eqn:E; [contradiction|].
  cbn [analyzing data insights].
  split; [reflexivity|]. split; [reflexivity|]. split.
  - intros Hai Hfail. unfold generateInsights. rewrite Hai. simpl negb.
    cbn [orb List.length Nat.eqb].
    destruct (Hfail ("Data: "
                     ++ JSON_stringify S (sliceLast 30 (row :: rows))
                     ++ nl ++ nl ++ prompt tableName)%string)
      as [->|(text & -> & Hne & Hparse)].
    + reflexivity.
    + destruct (String.eqb_spec text ""); [contradiction|].
      now rewrite Hparse.
  - intros Hai. unfold generateInsights. now rewrite Hai.
Qed.

Lemma analysis_outcome_in_panel_witness :
  let st := onInsert (hd [] exampleRows) initial in
  data st <> []
  /\ panel (insights (triggerAnalysis failing "orders" st))
           (analyzing (triggerAnalysis failing "orders" st))
     = [Content "Could not generate financial insights at this time."
          None None].
Proof.
  intros st.
  assert (H : data st <> []) by discriminate.
  split; [exact H|].
  apply (proj1 (proj2 (proj2 (analysis_outcome_in_panel failing "orders" st H))));
    [reflexivity|]. intros contents. now left.
Defined.

Lemma panel_renders_one_block_witness :
  panel (Some unavailable) false
  = [Content "Could not generate financial insights at this time." None None].
Proof.
  destruct (panel_renders_one_block (Some unavailable) false)
    as (block & -> & _ & _ & H).
  now rewrite (H unavailable eq_refl).
Defined.

(** *** Sums that stay numbers *)

Lemma or_zero_not_NaN (x : number) : or_zero x <> NaN.
Proof.
  destruct x as [|s|q]; unfold or_zero; simpl; try discriminate.
  destruct (negb (Qzerob q)); discriminate.
Qed.

Lemma add_nonneg (x y : number) :
  leb (num 0) x = true -> leb (num 0) y = true -> leb (num 0) (add x y) = true.
Proof.
  destruct x as [|[|]|a], y as [|[|]|b]; cbn [leb add num Bool.eqb];
    try discriminate; try reflexivity.
  intros Ha Hb. apply Qle_bool_iff. rewrite Qred_correct.
  apply Qle_bool_iff in Ha, Hb. change (inject_Z 0) with 0%Q in *.
  rewrite <- (Qplus_0_l 0). now apply Qplus_le_compat.
Qed.

Lemma fold_nonneg (l : list number) (s : number) :
  leb (num 0) s = true -> Forall (fun x => leb (num 0) x = true) l ->
  leb (num 0) (fold_left add l s) = true.
Proof.
  revert s. induction l as [|x l IH]; intros s Hs Hl; simpl; [exact Hs|].
  inversion Hl as [|? ? Hx Hl']; subst. apply IH; [|exact Hl'].
  now apply add_nonneg.
Qed.

Lemma total_map_nonneg (g : Row -> number) (p : Row -> bool)
  (data : list Row) :
  (forall row, In row data -> leb (num 0) (g row) = true) ->
  leb (num 0) (total (map g (filter p data))) = true.
Proof.
  intros H. apply fold_nonneg; [reflexivity|]. apply Forall_forall.
  intros x Hx. apply in_map_iff in Hx as (row & <- & Hrow).
  apply filter_In in Hrow as [Hrow _]. now apply H.
Qed.

(** X18: the revenue and the expense of a row are never NaN -- a value
    whose numeric coercion is NaN counts as 0 --, so that, when no row of
    the table has a negative revenue, every revenue of the category
    aggregate and of the monthly series is a number that is not negative,
    never NaN; and likewise for the expenses of the category
    aggregate. *)
Theorem revenue_and_expense_sums_are_numbers
  (P : Platform) (proto : Proto) (data : list Row) (a : Analytics) :
  analytics P proto data = Some a ->
  (forall proto' row,
     revOf (keys a) proto' row <> NaN /\ expOf (keys a) proto' row <> NaN
     /\ (ToNumber (prop proto' row (revKey (keys a))) = NaN ->
         revOf (keys a) proto' row = num 0)
     /\ (ToNumber (prop proto' row (expKey (keys a))) = NaN ->
         expOf (keys a) proto' row = num 0))
  /\ ((forall row, In row data ->
         leb (num 0) (revOf (keys a) proto row) = true) ->
      (forall e, In e (deptChartData a) ->
         leb (num 0) (Chart.revenue e) = true /\ Chart.revenue e <> NaN)
      /\ (forall m, In m (monthlyChartData a) ->
            leb (num 0) (Monthly.revenue m) = true
            /\ Monthly.revenue m <> NaN))
  /\ ((forall row, In row data ->
         leb (num 0) (expOf (keys a) proto row) = true) ->
      forall e, In e (deptChartData a) ->
        leb (num 0) (Chart.expenses e) = true /\ Chart.expenses e <> NaN).
Proof.
  intros H.
  assert (N : forall x, leb (num 0) x = true -> x <> NaN)
    by (intros x Hx ->; discriminate Hx).
  split; [|split].
  - intros proto' row. unfold revOf, expOf.
    repeat split; try apply or_zero_not_NaN; now intros ->.
  - intros Hf. split.
    + intros e He.
      destruct (chart_entry P proto data a e H He) as (d & i & Hg & ->).
      cbn [Chart.revenue Chart.name withColor] in *.
      assert (L : leb (num 0) (Dept.revenue d) = true).
      { rewrite (dept_revenue P (keys a) proto data _ d Hg).
        now apply total_map_nonneg. }
      auto.
    + intros m Hm.
      pose proof (series_entry P proto data a m H Hm) as G.
      assert (L : leb (num 0) (Monthly.revenue m) = true).
      { rewrite (month_revenue P (keys a) proto data _ m G).
        now apply total_map_nonneg. }
      auto.
  - intros Hf e He.
    destruct (chart_entry P proto data a e H He) as (d & i & Hg & ->).
    cbn [Chart.expenses Chart.name withColor] in *.
    assert (L : leb (num 0) (Dept.expenses d) = true).
    { rewrite (dept_expenses P (keys a) proto data _ d Hg).
      now apply total_map_nonneg. }
    auto.
Qed.

Lemma revenue_and_expense_sums_are_numbers_witness :
  let rows := [ [("revenue", VString "abc"); ("cost", VNumber (num 4))];
                [("revenue", VNumber (num 6)); ("cost", VString "n/a")] ] in
  exists a,
    analytics (host 0) pristine rows = Some a
    /\ map Chart.revenue (deptChartData a) = [num 6]
    /\ (forall row, In row rows ->
          leb (num 0) (revOf (keys a) pristine row) = true)
    /\ forall e, In e (deptChartData a) ->
         leb (num 0) (Chart.revenue e) = true /\ Chart.revenue e <> NaN.
Proof.
  intros rows.
  destruct (analytics (host 0) pristine rows) as [a|] eqn:A;
    [|vm_compute in A; discriminate A].
  assert (R : forall row, In row rows ->
                leb (num 0) (revOf (keys a) pristine row) = true).
  { pose proof A as A'. vm_compute in A'. injection A' as <-.
    intros row [<-|[<-|[]]]; reflexivity. }
  pose proof (proj1 (proj1 (proj2 (revenue_and_expense_sums_are_numbers
                                     (host 0) pristine rows a A)) R)) as H.
  exists a. split; [reflexivity|]. split; [|split; [exact R|exact H]].
  vm_compute in A. now injection A as <-.
Defined.

(** *** The first row of a bucket *)

(** X19: an entry of the monthly series carries the sort key of the
    first row of the table labelled with its month, whatever the sort keys
    of the later rows with that label. *)
Theorem month_sort_key_of_first_row
  (P : Platform) (proto : Proto) (data : list Row) (a : Analytics)
  (m : Monthly.t) :
  analytics P proto data = Some a -> In m (monthlyChartData a) ->
  exists before row after,
    data = before ++ row :: after
    /\ monthOf P (keys a) proto row = (Monthly.month m, Monthly.sortKey m)
    /\ forall r, In r before ->
         fst (monthOf P (keys a) proto r) <> Monthly.month m.
Proof. apply series_first. Qed.

Lemma month_sort_key_of_first_row_witness :
  let rows := [ [("date", VString "1924-01-15")];
                [("date", VString "2024-01-15")] ] in
  exists a m,
    analytics (host 0) pristine rows = Some a
    /\ monthlyChartData a = [m]
    /\ Monthly.month m = "Jan 24" /\ Monthly.sortKey m = 192400
    /\ exists before row after,
         rows = before ++ row :: after
         /\ monthOf (host 0) (keys a) pristine row
            = (Monthly.month m, Monthly.sortKey m).
Proof.
  intros rows.
  destruct (analytics (host 0) pristine rows) as [a|] eqn:A;
    [|vm_compute in A; discriminate A].
  pose (m := Monthly.mk "Jan 24" (num 0) (num 0) 192400).
  assert (E : monthlyChartData a = [m]).
  { pose proof A as A'. vm_compute in A'. now injection A' as <-. }
  assert (I : In m (monthlyChartData a)) by (rewrite E; now left).
  destruct (month_sort_key_of_first_row (host 0) pristine rows a m A I)
    as (b & row & af & Hrows & Hof & _).
  exists a, m. repeat split; try assumption; try reflexivity.
  exists b, row, af. auto.
Defined.

End MoreFacts.
